(** * The rotating sensor log of py2025-project-v1 (logger/logger.py)

    A shallow embedding of the [Logger] class: the CSV log writer with its
    rotation predicate, the zip archiver with its retention sweep, and the
    reader that merges the active file with the archives.

    What is modelled, and at which level:
    - a [datetime] is the number of microseconds on the naive local time line
      ([Z]); a [timedelta] is a number of microseconds;
    - a CSV file is the list of its rows, a row the list of its fields
      (the header is the first row); the text layer of the [csv] module
      (quoting, line ends) is not modelled, the module is taken to give back
      the field lists it was given;
    - the two directories are finite maps from entry names to contents;
    - a method is a state transformer over [world] (the [Logger] object and
      the two directories) that returns a value or raises an exception; the
      state reached when the exception is raised is kept, as in Python;
    - a call runs at one instant [now]: each [datetime.now()] inside it, and
      the modification time stamped by its writes, read that instant;
    - the text codecs of the standard library ([isoformat], [fromisoformat],
      [strftime], [strptime], [str] and [float] on floating point numbers)
      are an interface, class [Platform]; [RefPlatform] is an instance that
      runs;
    - the [Sensor] base class of sensors/sensor.py, whose [read] hands its
      value to the logger, is modelled with its list of observers; the
      random generators of its subclasses are not: the raw value is an
      input of [read]. *)

From Stdlib Require Import ZArith Lia Ascii String DecimalString DecimalZ.
From stdpp Require Import gmap strings list fin_maps sorting.

Local Open Scope string_scope.
Local Open Scope list_scope.
Local Open Scope Z_scope.

(** ** Exceptions and results *)

Inductive exn : Type :=
| FileNotFoundError
| IsADirectoryError
| OSError
| BadZipFile
| ValueError
| TypeError
| KeyError.

Inductive result (A : Type) : Type :=
| Ok (a : A)
| Raise (e : exn).

Arguments Ok {A} a.
Arguments Raise {A} e.

Definition is_ok {A : Type} (r : result A) : bool :=
  match r with Ok _ => true | Raise _ => false end.

Definition rbind {A B : Type} (r : result A) (k : A -> result B) : result B :=
  match r with
  | Ok a => k a
  | Raise e => Raise e
  end.

(** ** The file system and the logger object *)

Definition row : Type := list string.

(** A regular file of the log directory: its CSV rows and [st_mtime]. *)
Record file : Type := File { f_rows : list row; f_mtime : Z }.

(** An entry of the archive directory. A zip archive holds named members,
    each the rows of a CSV file. *)
Inductive entry : Type :=
| ZipArchive (members : list (string * list row))
| NotAZip
| Directory.

(** The values read from the JSON configuration. *)
Record cfg_values : Type := Cfg {
  filename_pattern : string;
  rotate_every : Z;      (* cfg['rotate_every_hours'] *)
  max_size : Z;          (* cfg['max_size_mb'] *)
  rotate_after : Z;      (* cfg['rotate_after_lines'] *)
  retention : Z          (* cfg['retention_days'] *)
}.

#[global] Instance entry_eq_dec : EqDecision entry.
Proof. solve_decision. Defined.

Record world : Type := World {
  cfg : cfg_values;
  log_dir : gmap string file;        (* regular files of self.log_dir *)
  archive_dir : gmap string entry;   (* entries of self.archive_dir *)
  current_file : string;             (* self.current_file.name *)
  fp_open : bool;                    (* self._fp is open *)
  _line_count : Z
}.

Definition set_log_dir (d : gmap string file) (w : world) : world :=
  World (cfg w) d (archive_dir w) (current_file w) (fp_open w) (_line_count w).
Definition set_archive_dir (a : gmap string entry) (w : world) : world :=
  World (cfg w) (log_dir w) a (current_file w) (fp_open w) (_line_count w).
Definition set_current_file (n : string) (w : world) : world :=
  World (cfg w) (log_dir w) (archive_dir w) n (fp_open w) (_line_count w).
Definition set_fp_open (b : bool) (w : world) : world :=
  World (cfg w) (log_dir w) (archive_dir w) (current_file w) b (_line_count w).
Definition set_line_count (n : Z) (w : world) : world :=
  World (cfg w) (log_dir w) (archive_dir w) (current_file w) (fp_open w) n.

(** ** The monad of methods: state, and exceptions that keep the state *)

Definition M (A : Type) : Type := world -> result A * world.

Definition ret {A : Type} (a : A) : M A := fun w => (Ok a, w).
Definition raise {A : Type} (e : exn) : M A := fun w => (Raise e, w).
Definition bind {A B : Type} (m : M A) (k : A -> M B) : M B :=
  fun w => match m w with
           | (Ok a, w') => k a w'
           | (Raise e, w') => (Raise e, w')
           end.
Definition gets {A : Type} (f : world -> A) : M A := fun w => (Ok (f w), w).
Definition modify (f : world -> world) : M unit := fun w => (Ok tt, f w).

Declare Scope logger_scope.
Delimit Scope logger_scope with logger.
Notation "'let*' x ':=' c 'in' k" := (bind c (fun x => k))
  (at level 10, x binder, c at level 200, k at level 200,
   format "'[v' 'let*'  x  ':='  c  'in' '/' k ']'") : logger_scope.
Notation "c '>>>' k" := (bind c (fun _ => k))
  (at level 90, right associativity) : logger_scope.

(** What a call meets outside the program: the clock, and whether writing
    the zip archive fails. *)
Inductive fault : Type :=
| NoFault
| OpenFault     (* the archive cannot be created *)
| WriteFault.   (* the archive is created, writing the member fails *)

Record env : Type := Env { now : Z; zip_fault : fault }.

(** ** Values of a log record *)

Record SensorConfig : Type := SensorConfig_ {
  sensor_id : string;
  sensor_name : string;
  unit_ : string
}.
Record Sensor : Type := Sensor_ { config : SensorConfig }.

(** ** The library interface *)

Class Platform : Type := {
  float : Type;
  (* datetime.isoformat, datetime.fromisoformat *)
  isoformat : Z -> string;
  fromisoformat : string -> option Z;
  (* datetime.strftime, datetime.strptime; the format is the second argument *)
  strftime : Z -> string -> string;
  strptime : string -> string -> option Z;
  (* str(x) as the csv writer renders a float, and float(s) *)
  str_float : float -> string;
  float_of_str : string -> option float;
  (* the number of bytes the csv writer emits for a row *)
  line_bytes : row -> Z
}.

Definition header : row := ["timestamp"; "sensor_id"; "value"; "unit"].

(** The format of the rotation stamp in an archive name. *)
Definition stamp_fmt : string := "%Y%m%d%H%M%S".

Definition usec_per_sec : Z := 1000000.
(** [timedelta(hours=h)] and [timedelta(days=d)], in microseconds. *)
Definition hours (h : Z) : Z := h * 3600 * usec_per_sec.
Definition days (d : Z) : Z := d * 86400 * usec_per_sec.
(** The instant without its microseconds: what a stamp keeps of a time. *)
Definition floor_sec (t : Z) : Z := t / usec_per_sec * usec_per_sec.

(** ** Names of archive entries *)

(** [name.rpartition('.')]: the text before and after the last dot. *)
Fixpoint rsplit_dot (s : string) : option (string * string) :=
  match s with
  | EmptyString => None
  | String c r =>
      match rsplit_dot r with
      | Some (b, a) => Some (String c b, a)
      | None => if Ascii.eqb c "."%char then Some (EmptyString, r) else None
      end
  end.

Definition nonempty (s : string) : bool :=
  match s with EmptyString => false | String _ _ => true end.

(** [PurePath.stem]: the name without its last suffix; a leading or a
    trailing dot starts no suffix. *)
Definition stem (n : string) : string :=
  match rsplit_dot n with
  | Some (b, a) => if nonempty b && nonempty a then b else n
  | None => n
  end.

(** [s.split('.')[-1]] *)
Definition last_component (s : string) : string :=
  match rsplit_dot s with
  | Some (_, a) => a
  | None => s
  end.

(** [fnmatch(n, '*.zip')] *)
Definition is_zip_name (n : string) : bool :=
  let k := String.length n in
  (4 <=? k)%nat && String.eqb (substring (k - 4) 4 n) ".zip".

(** ** Rows as dictionaries: csv.DictWriter and csv.DictReader *)

(** A field of a record as [update] builds it. *)
Inductive pyval `{Platform} : Type :=
| PStr (s : string)
| PFloat (x : float).

(** The csv writer writes a string as it is and a number through [str]. *)
Definition csv_str `{Platform} (v : pyval) : string :=
  match v with
  | PStr s => s
  | PFloat x => str_float x
  end.

(** [DictWriter.writerow]: the values in the order of [fieldnames]; a key
    that is missing is written as the empty string. *)
Definition dict_to_row `{Platform} (fieldnames : list string)
    (rec : gmap string pyval) : row :=
  map (fun k => match rec !! k with Some v => csv_str v | None => "" end)
      fieldnames.

(** A row as [DictReader] yields it: [None] stands for Python's [None],
    the value of a field the row is too short to have. *)
Definition dict : Type := gmap string (option string).

(** [dict(zip(fieldnames, row))], then [restval] for the missing fields.
    A later column of the same name wins. Fields beyond the header go under
    the key [None], which no lookup by name reads. *)
Fixpoint zip_fill (fieldnames : list string) (r : row)
    : list (string * option string) :=
  match fieldnames with
  | [] => []
  | k :: ks =>
      match r with
      | [] => (k, None) :: zip_fill ks []
      | v :: vs => (k, Some v) :: zip_fill ks vs
      end
  end.

Definition to_dict (fieldnames : list string) (r : row) : dict :=
  foldl (fun d kv => <[kv.1 := kv.2]> d) ∅ (zip_fill fieldnames r).

Definition is_blank (r : row) : bool :=
  match r with [] => true | _ => false end.

(** [csv.DictReader(f)]: the first row gives the field names, blank rows
    are passed over. *)
Definition DictReader (rows : list row) : list dict :=
  match rows with
  | [] => []
  | fieldnames :: rest =>
      map (to_dict fieldnames) (List.filter (fun r => negb (is_blank r)) rest)
  end.

(** [row[key]] *)
Definition getitem (d : dict) (key : string) : result (option string) :=
  match d !! key with
  | Some v => Ok v
  | None => Raise KeyError
  end.

(** [datetime.fromisoformat(v)] and [float(v)] on a field. *)
Definition py_fromisoformat `{Platform} (v : option string) : result Z :=
  match v with
  | None => Raise TypeError
  | Some s => match fromisoformat s with
              | Some t => Ok t
              | None => Raise ValueError
              end
  end.

Definition py_float `{Platform} (v : option string) : result float :=
  match v with
  | None => Raise TypeError
  | Some s => match float_of_str s with
              | Some x => Ok x
              | None => Raise ValueError
              end
  end.

Notation "'let+' x ':=' c 'in' k" := (rbind c (fun x => k))
  (at level 10, x binder, c at level 200, k at level 200,
   format "'[v' 'let+'  x  ':='  c  'in' '/' k ']'") : logger_scope.

Local Open Scope logger_scope.

(** An entry of the list [read_logs] returns. [sensor_id] and [unit] are
    what the row holds, [None] when the row is too short. *)
Record LogEntry `{Platform} : Type := LogEntry_ {
  e_timestamp : Z;
  e_sensor_id : option string;
  e_value : float;
  e_unit : option string
}.

Section Logger.
Context `{Platform}.

(** *** Files *)

(** [self.current_file.stat()] *)
Definition stat (n : string) : M file :=
  fun w => match log_dir w !! n with
           | Some f => (Ok f, w)
           | None => (Raise FileNotFoundError, w)
           end.

Definition st_size (f : file) : Z :=
  foldr (fun r acc => line_bytes r + acc) 0 (f_rows f).

(** [self._writer.writerow(...)] followed by [self._fp.flush()]: a closed
    handle raises [ValueError]; the row goes to the end of the file, whose
    modification time becomes the instant of the write. *)
Definition write_row (t : Z) (r : row) : M unit :=
  fun w =>
    if fp_open w
    then (Ok tt,
          set_log_dir (alter (fun f => File (f_rows f ++ [r]) t)
                             (current_file w) (log_dir w)) w)
    else (Raise ValueError, w).

Definition exists_file (d : gmap string file) (n : string) : bool :=
  match d !! n with Some _ => true | None => false end.

(** [Logger._open_file] *)
Definition _open_file (e : env) : M unit :=
  let* n := gets current_file in
  let* d := gets log_dir in
  let is_new := negb (exists_file d n) in
  (* open('a') creates the file when there is none *)
  modify (fun w => set_fp_open true
            (if is_new then set_log_dir (<[n := File [] (now e)]> d) w else w)) >>>
  if is_new then write_row (now e) header else ret tt.

(** [Logger.__init__], from the configuration values and the directories
    as it finds them. *)
Definition __init__ (c : cfg_values) (e : env)
    (files : gmap string file) (arch : gmap string entry) : result unit * world :=
  (_open_file e >>> modify (set_line_count 0))
    (World c files arch (strftime (now e) (filename_pattern c)) false 0).

(** [Logger._needs_rotation] *)
Definition _needs_rotation (e : env) : M bool :=
  let* n := gets current_file in
  let* st := stat n in
  let age := now e - f_mtime st in
  let* lc := gets _line_count in
  let* c := gets cfg in
  if rotate_after c <=? lc then ret true
  else if hours (rotate_every c) <=? age then ret true
  else
    let* st' := stat n in
    if max_size c * 1024 * 1024 <=? st_size st' then ret true
    else ret false.

(** *** The archiver *)

(** [with zipfile.ZipFile(archive, 'w') as zf: zf.write(path, arcname=...)]:
    opening creates or truncates the archive, writing copies the file into
    it as one member. When the write fails the archive entry stays behind. *)
Definition zip_write (e : env) (archive member : string) : M unit :=
  fun w =>
    match zip_fault e with
    | OpenFault => (Raise OSError, w)
    | flt =>
        match archive_dir w !! archive with
        | Some Directory => (Raise IsADirectoryError, w)
        | _ =>
            match log_dir w !! member with
            | None =>
                (Raise FileNotFoundError,
                 set_archive_dir (<[archive := ZipArchive []]> (archive_dir w)) w)
            | Some f =>
                match flt with
                | WriteFault =>
                    (Raise OSError,
                     set_archive_dir (<[archive := NotAZip]> (archive_dir w)) w)
                | _ =>
                    (Ok tt,
                     set_archive_dir
                       (<[archive := ZipArchive [(member, f_rows f)]]> (archive_dir w)) w)
                end
            end
        end
    end.

(** [self.current_file.unlink()] *)
Definition unlink_file (n : string) : M unit :=
  fun w => match log_dir w !! n with
           | Some _ => (Ok tt, set_log_dir (delete n (log_dir w)) w)
           | None => (Raise FileNotFoundError, w)
           end.

(** [z.unlink()] on an entry of the archive directory. *)
Definition unlink_entry (z : string) (a : gmap string entry)
    : result (gmap string entry) :=
  match a !! z with
  | None => Raise FileNotFoundError
  | Some Directory => Raise IsADirectoryError
  | Some _ => Ok (delete z a)
  end.

Definition py_strptime (s fmt : string) : result Z :=
  match strptime s fmt with
  | Some t => Ok t
  | None => Raise ValueError
  end.

(** The body of the loop of [_cleanup_archives], with its [try] and
    [except Exception: continue]. *)
Definition sweep_one (expire : Z) (a : gmap string entry) (z : string)
    : gmap string entry :=
  match (let+ ts := py_strptime (last_component (stem z)) stamp_fmt in
         if ts <? expire then unlink_entry z a else Ok a) with
  | Ok a' => a'
  | Raise _ => a
  end.

(** [self.archive_dir.iterdir()] *)
Definition iterdir (a : gmap string entry) : list string :=
  (map_to_list a).*1.

(** The loop [for z in self.archive_dir.iterdir()]. *)
Definition sweep (expire : Z) (a : gmap string entry) : gmap string entry :=
  foldl (sweep_one expire) a (iterdir a).

(** [Logger._cleanup_archives] *)
Definition _cleanup_archives (e : env) : M unit :=
  let* c := gets cfg in
  let expire := now e - days (retention c) in
  modify (fun w => set_archive_dir (sweep expire (archive_dir w)) w).

(** [f"{self.current_file.name}.{timestamp}.zip"] *)
Definition archive_name (n : string) (t : Z) : string :=
  n +:+ "." +:+ strftime t stamp_fmt +:+ ".zip".

(** [Logger._rotate] *)
Definition _rotate (e : env) : M unit :=
  modify (set_fp_open false) >>>
  let* n := gets current_file in
  let archive := archive_name n (now e) in
  zip_write e archive n >>>
  unlink_file n >>>
  modify (set_line_count 0) >>>
  let* c := gets cfg in
  modify (set_current_file (strftime (now e) (filename_pattern c))) >>>
  _open_file e >>>
  _cleanup_archives e.

(** The record [update] builds. *)
Definition make_rec (t : Z) (sensor : Sensor) (value : float) : gmap string pyval :=
  <["unit" := PStr (unit_ (config sensor))]>
    (<["value" := PFloat value]>
       (<["sensor_id" := PStr (sensor_id (config sensor))]>
          (<["timestamp" := PStr (isoformat t)]> ∅))).

(** [Logger.update] *)
Definition update (e : env) (sensor : Sensor) (value : float) : M unit :=
  let rec := make_rec (now e) sensor value in
  write_row (now e) (dict_to_row header rec) >>>
  modify (fun w => set_line_count (_line_count w + 1) w) >>>
  let* due := _needs_rotation e in
  if due then _rotate e else ret tt.

(** [Logger.close] *)
Definition close : M unit := modify (set_fp_open false).

(** *** The reader *)

(** The condition of the [if] in the loops of [read_logs]; the sensor
    column is read only when the time test holds and a filter is given. *)
Definition selects (start end_ : Z) (flt : option string) (ts : Z) (d : dict)
    : result bool :=
  if (start <=? ts) && (ts <=? end_) then
    match flt with
    | None => Ok true
    | Some s => let+ v := getitem d "sensor_id" in Ok (bool_decide (v = Some s))
    end
  else Ok false.

(** The loop [for row in reader] of [read_logs], appending to [entries]. *)
Fixpoint scan (start end_ : Z) (flt : option string) (reader : list dict)
    (entries : list LogEntry) : result (list LogEntry) :=
  match reader with
  | [] => Ok entries
  | d :: rest =>
      let+ tsf := getitem d "timestamp" in
      let+ ts := py_fromisoformat tsf in
      let+ sel := selects start end_ flt ts d in
      if sel then
        let+ sid := getitem d "sensor_id" in
        let+ vf := getitem d "value" in
        let+ v := py_float vf in
        let+ u := getitem d "unit" in
        scan start end_ flt rest (entries ++ [LogEntry_ _ ts sid v u])
      else scan start end_ flt rest entries
  end.

(** [for name in zf.namelist()]: every member is read as a CSV file. *)
Fixpoint scan_members (start end_ : Z) (flt : option string)
    (members : list (string * list row)) (entries : list LogEntry)
    : result (list LogEntry) :=
  match members with
  | [] => Ok entries
  | m :: rest =>
      let+ es := scan start end_ flt (DictReader m.2) entries in
      scan_members start end_ flt rest es
  end.

(** [zipfile.ZipFile(z)] *)
Definition open_zip (a : gmap string entry) (z : string)
    : result (list (string * list row)) :=
  match a !! z with
  | None => Raise FileNotFoundError
  | Some (ZipArchive ms) => Ok ms
  | Some NotAZip => Raise BadZipFile
  | Some Directory => Raise IsADirectoryError
  end.

(** The loop over the archives: [zs] is what [glob('*.zip')] listed, [a]
    the directory as it is when the archives are opened. *)
Fixpoint scan_archives (start end_ : Z) (flt : option string)
    (a : gmap string entry) (zs : list string) (entries : list LogEntry)
    : result (list LogEntry) :=
  match zs with
  | [] => Ok entries
  | z :: rest =>
      let+ ms := open_zip a z in
      let+ es := scan_members start end_ flt ms entries in
      scan_archives start end_ flt a rest es
  end.

(** [self.archive_dir.glob('*.zip')] *)
Definition glob_zip (a : gmap string entry) : list string :=
  List.filter is_zip_name (iterdir a).

(** [sorted(entries, key=lambda x: x['timestamp'])]: ascending and stable. *)
Fixpoint insert_by_ts (x : LogEntry) (l : list LogEntry) : list LogEntry :=
  match l with
  | [] => [x]
  | y :: l' =>
      if e_timestamp x <=? e_timestamp y then x :: y :: l'
      else y :: insert_by_ts x l'
  end.

Definition sorted (l : list LogEntry) : list LogEntry :=
  foldr insert_by_ts [] l.

(** [Logger.read_logs], which takes no lock: [seen] is the state in which
    it tests [csv_path.exists()] and lists the archives, [opened] the state
    in which it then opens the files. A rotation in another thread can make
    the two differ. *)
Definition read_logs_between (seen opened : world)
    (start end_ : Z) (flt : option string) : result (list LogEntry) :=
  let csv_path := current_file seen in
  let+ entries :=
    (if exists_file (log_dir seen) csv_path then
       match log_dir opened !! csv_path with
       | None => Raise FileNotFoundError
       | Some f => scan start end_ flt (DictReader (f_rows f)) []
       end
     else Ok []) in
  let+ entries :=
    scan_archives start end_ flt (archive_dir opened)
                  (glob_zip (archive_dir seen)) entries in
  Ok (sorted entries).

(** [Logger.read_logs] with no other thread at work. *)
Definition read_logs (w : world) (start end_ : Z) (flt : option string)
    : result (list LogEntry) :=
  read_logs_between w w start end_ flt.

End Logger.

(** ** A platform that runs

    The codecs of the Python library on the values the examples use:
    the proleptic Gregorian calendar of [datetime] (ordinal 1 is
    0001-01-01, as in [datetime.py]), [isoformat] with its optional
    microseconds, [strftime] and [strptime] for the directives
    [%Y %m %d %H %M %S] with fields of fixed width, and floating point
    numbers restricted to the integral ones, printed as [str] prints them
    ([5.0]). The parsers accept what the printers produce; Python's accept
    more. *)
Module Ref.

Definition is_leap (y : Z) : bool :=
  (y mod 4 =? 0) && (negb (y mod 100 =? 0) || (y mod 400 =? 0)).

Definition days_before_year (y : Z) : Z :=
  let y := y - 1 in y * 365 + y / 4 - y / 100 + y / 400.

Definition days_in_month (y m : Z) : Z :=
  if (m =? 2) && is_leap y then 29
  else nth (Z.to_nat m) [0; 31; 28; 31; 30; 31; 30; 31; 31; 30; 31; 30; 31] 0.

Definition days_before_month (y m : Z) : Z :=
  nth (Z.to_nat m) [0; 0; 31; 59; 90; 120; 151; 181; 212; 243; 273; 304; 334] 0
  + (if (2 <? m) && is_leap y then 1 else 0).

Definition ymd2ord (y m d : Z) : Z :=
  days_before_year y + days_before_month y m + d.

Definition ord2ymd (n : Z) : Z * Z * Z :=
  let n := n - 1 in
  let n400 := n / 146097 in
  let n := n mod 146097 in
  let n100 := n / 36524 in
  let n := n mod 36524 in
  let n4 := n / 1461 in
  let n := n mod 1461 in
  let n1 := n / 365 in
  let n := n mod 365 in
  let year := n400 * 400 + 1 + n100 * 100 + n4 * 4 + n1 in
  if (n1 =? 4) || (n100 =? 4) then (year - 1, 12, 31)
  else
    let leapyear := (n1 =? 3) && (negb (n4 =? 24) || (n100 =? 3)) in
    let month := (n + 50) / 32 in
    let preceding :=
      nth (Z.to_nat month) [0; 0; 31; 59; 90; 120; 151; 181; 212; 243; 273; 304; 334] 0
      + (if (2 <? month) && leapyear then 1 else 0) in
    if n <? preceding then
      let month := month - 1 in
      let preceding :=
        preceding
        - (nth (Z.to_nat month) [0; 31; 28; 31; 30; 31; 30; 31; 31; 30; 31; 30; 31] 0
           + (if (month =? 2) && leapyear then 1 else 0)) in
      (year, month, n - preceding + 1)
    else (year, month, n - preceding + 1).

(** [datetime(y, m, d, hh, mm, ss, us)] on the time line. *)
Definition datetime (y m d hh mm ss us : Z) : Z :=
  (((ymd2ord y m d - 1) * 24 + hh) * 60 + mm) * 60 * usec_per_sec
  + ss * usec_per_sec + us.

Definition valid_fields (y m d hh mm ss us : Z) : bool :=
  (1 <=? y) && (y <=? 9999) && (1 <=? m) && (m <=? 12)
  && (1 <=? d) && (d <=? days_in_month y m)
  && (0 <=? hh) && (hh <? 24) && (0 <=? mm) && (mm <? 60)
  && (0 <=? ss) && (ss <? 60) && (0 <=? us) && (us <? usec_per_sec).

(** The fields of an instant. *)
Record fields : Type := Fields {
  f_year : Z; f_month : Z; f_day : Z;
  f_hour : Z; f_minute : Z; f_second : Z; f_usec : Z
}.

Definition to_fields (t : Z) : fields :=
  let day := t / (86400 * usec_per_sec) in
  let rest := t mod (86400 * usec_per_sec) in
  let secs := rest / usec_per_sec in
  let '(y, m, d) := ord2ymd (day + 1) in
  Fields y m d (secs / 3600) (secs / 60 mod 60) (secs mod 60)
         (rest mod usec_per_sec).

Definition of_fields (f : fields) : option Z :=
  if valid_fields (f_year f) (f_month f) (f_day f)
                  (f_hour f) (f_minute f) (f_second f) (f_usec f)
  then Some (datetime (f_year f) (f_month f) (f_day f)
                      (f_hour f) (f_minute f) (f_second f) (f_usec f))
  else None.

(** Decimal digits. *)
Definition digit (d : Z) : ascii := ascii_of_nat (48 + Z.to_nat d).

Fixpoint pad (width : nat) (n : Z) : string :=
  match width with
  | O => ""
  | S w => pad w (n / 10) +:+ String (digit (n mod 10)) ""
  end.

Definition digit_value (c : ascii) : option Z :=
  let k := Z.of_nat (nat_of_ascii c) in
  if (48 <=? k) && (k <=? 57) then Some (k - 48) else None.

Fixpoint digits_value (s : string) (acc : Z) : option Z :=
  match s with
  | EmptyString => Some acc
  | String c r =>
      match digit_value c with
      | Some d => digits_value r (acc * 10 + d)
      | None => None
      end
  end.

(** A number of exactly [width] digits at the head of [s], and the rest. *)
Definition take_number (width : nat) (s : string) : option (Z * string) :=
  if (width <=? String.length s)%nat then
    match digits_value (substring 0 width s) 0 with
    | Some n => Some (n, substring width (String.length s - width) s)
    | None => None
    end
  else None.

Definition take_char (c : ascii) (s : string) : option string :=
  match s with
  | String c' r => if Ascii.eqb c c' then Some r else None
  | EmptyString => None
  end.

Definition isoformat (t : Z) : string :=
  let f := to_fields t in
  pad 4 (f_year f) +:+ "-" +:+ pad 2 (f_month f) +:+ "-" +:+ pad 2 (f_day f)
  +:+ "T" +:+ pad 2 (f_hour f) +:+ ":" +:+ pad 2 (f_minute f) +:+ ":"
  +:+ pad 2 (f_second f)
  +:+ (if f_usec f =? 0 then "" else "." +:+ pad 6 (f_usec f)).

Definition fromisoformat (s : string) : option Z :=
  '(y, s) ← take_number 4 s;
  s ← take_char "-" s;
  '(m, s) ← take_number 2 s;
  s ← take_char "-" s;
  '(d, s) ← take_number 2 s;
  s ← take_char "T" s;
  '(hh, s) ← take_number 2 s;
  s ← take_char ":" s;
  '(mm, s) ← take_number 2 s;
  s ← take_char ":" s;
  '(ss, s) ← take_number 2 s;
  match s with
  | EmptyString => of_fields (Fields y m d hh mm ss 0)
  | _ =>
      s ← take_char "." s;
      '(us, s) ← take_number 6 s;
      if nonempty s then None else of_fields (Fields y m d hh mm ss us)
  end.

(** One directive of [strftime]. *)
Definition directive (f : fields) (c : ascii) : option string :=
  if Ascii.eqb c "Y" then Some (pad 4 (f_year f))
  else if Ascii.eqb c "m" then Some (pad 2 (f_month f))
  else if Ascii.eqb c "d" then Some (pad 2 (f_day f))
  else if Ascii.eqb c "H" then Some (pad 2 (f_hour f))
  else if Ascii.eqb c "M" then Some (pad 2 (f_minute f))
  else if Ascii.eqb c "S" then Some (pad 2 (f_second f))
  else None.

Fixpoint format_with (f : fields) (fmt : string) : string :=
  match fmt with
  | EmptyString => ""
  | String c r =>
      if Ascii.eqb c "%" then
        match r with
        | String k r' =>
            match directive f k with
            | Some s => s +:+ format_with f r'
            | None => String c (String k (format_with f r'))
            end
        | EmptyString => String c ""
        end
      else String c (format_with f r)
  end.

Definition strftime (t : Z) (fmt : string) : string :=
  format_with (to_fields t) fmt.

Definition set_field (k : ascii) (n : Z) (f : fields) : option fields :=
  if Ascii.eqb k "Y" then
    Some (Fields n (f_month f) (f_day f) (f_hour f) (f_minute f) (f_second f) (f_usec f))
  else if Ascii.eqb k "m" then
    Some (Fields (f_year f) n (f_day f) (f_hour f) (f_minute f) (f_second f) (f_usec f))
  else if Ascii.eqb k "d" then
    Some (Fields (f_year f) (f_month f) n (f_hour f) (f_minute f) (f_second f) (f_usec f))
  else if Ascii.eqb k "H" then
    Some (Fields (f_year f) (f_month f) (f_day f) n (f_minute f) (f_second f) (f_usec f))
  else if Ascii.eqb k "M" then
    Some (Fields (f_year f) (f_month f) (f_day f) (f_hour f) n (f_second f) (f_usec f))
  else if Ascii.eqb k "S" then
    Some (Fields (f_year f) (f_month f) (f_day f) (f_hour f) (f_minute f) n (f_usec f))
  else None.

Fixpoint parse_with (fmt : string) (s : string) (f : fields) : option fields :=
  match fmt with
  | EmptyString => if nonempty s then None else Some f
  | String c r =>
      if Ascii.eqb c "%" then
        match r with
        | String k r' =>
            '(n, s') ← take_number (if Ascii.eqb k "Y" then 4 else 2) s;
            f' ← set_field k n f;
            parse_with r' s' f'
        | EmptyString => None
        end
      else
        s' ← take_char c s;
        parse_with r s' f
  end.

(** [datetime.strptime(s, fmt)]; a field the format leaves out has the
    value of 1900-01-01T00:00:00. *)
Definition strptime (s fmt : string) : option Z :=
  f ← parse_with fmt s (Fields 1900 1 1 0 0 0 0);
  of_fields f.

(** Integral floating point numbers: [str] prints [5.0]. *)
Definition str_float (x : Z) : string :=
  NilZero.string_of_int (Z.to_int x) +:+ ".0".

Definition float_of_str (s : string) : option Z :=
  match rsplit_dot s with
  | Some (a, b) =>
      if String.eqb b "0" && nonempty a
      then Z.of_int <$> NilZero.int_of_string a
      else None
  | None =>
      if nonempty s then Z.of_int <$> NilZero.int_of_string s else None
  end.

(** The csv writer ends a row with CR LF and separates fields with a comma
    (fields that need no quoting). *)
Definition line_bytes (r : row) : Z :=
  match r with
  | [] => 2
  | _ => foldr (fun f acc => Z.of_nat (String.length f) + 1 + acc) 1 r
  end.

End Ref.

#[export] Instance RefPlatform : Platform := {|
  float := Z;
  isoformat := Ref.isoformat;
  fromisoformat := Ref.fromisoformat;
  strftime := Ref.strftime;
  strptime := Ref.strptime;
  str_float := Ref.str_float;
  float_of_str := Ref.float_of_str;
  line_bytes := Ref.line_bytes
|}.

(** ** Readings, as the claims speak of them *)

(** An appended reading: the instant of the call to [update], the sensor
    and the value. *)
Record Reading `{Platform} : Type := Reading_ {
  r_time : Z;
  r_sensor : Sensor;
  r_value : float
}.

Section Readings.
Context `{Platform}.

(** The row [update] writes for a reading. *)
Definition encode (r : Reading) : row :=
  dict_to_row header (make_rec (r_time r) (r_sensor r) (r_value r)).

(** The entry [read_logs] is to return for a reading. *)
Definition entry_of (r : Reading) : LogEntry :=
  LogEntry_ _ (r_time r) (Some (sensor_id (config (r_sensor r))))
            (r_value r) (Some (unit_ (config (r_sensor r)))).



(** A CSV file of readings: the header, then one row for each. *)
Definition csv_of (rs : list Reading) : list row :=
  header :: map encode rs.

Definition ts_le (a b : LogEntry) : Prop := e_timestamp a <= e_timestamp b.

(** The value [_needs_rotation] computes from the configuration, the row
    counter, the clock and the [stat] of the active file. *)
Definition rotation_due (c : cfg_values) (lc : Z) (t : Z) (f : file) : bool :=
  (rotate_after c <=? lc)
  || (hours (rotate_every c) <=? t - f_mtime f)
  || (max_size c * 1024 * 1024 <=? st_size f).

(** The state after the first three statements under the lock of [update]:
    the row written and flushed, the counter incremented. *)
Definition appended (e : env) (sensor : Sensor) (value : float) (w : world) : world :=
  set_line_count (_line_count w + 1)
    (set_log_dir
       (alter (fun f => File (f_rows f ++ [encode (Reading_ _ (now e) sensor value)]) (now e))
              (current_file w) (log_dir w)) w).

(** A run of the logger: one [update] after the other, up to the first
    that raises. *)
Fixpoint run (steps : list (env * Sensor * float)) (w : world)
    : result unit * world :=
  match steps with
  | [] => (Ok tt, w)
  | (e, sensor, value) :: rest =>
      match update e sensor value w with
      | (Ok _, w') => run rest w'
      | (Raise x, w') => (Raise x, w')
      end
  end.

(** The reading a step appends. *)
Definition reading_of (st : env * Sensor * float) : Reading :=
  Reading_ _ (now st.1.1) st.1.2 st.2.

(** The state after appends none of which rotates. *)
Definition appended_all (steps : list (env * Sensor * float)) (w : world) : world :=
  foldl (fun w st => appended st.1.1 st.1.2 st.2 w) w steps.

(** The modification time of the active file after such appends. *)
Definition last_write (t : Z) (steps : list (env * Sensor * float)) : Z :=
  foldl (fun _ st => now st.1.1) t steps.

End Readings.

Section Store.
Context `{Platform}.


(** The timestamp embedded in the name of an archive, as the sweep reads
    it. *)
Definition embedded_timestamp (z : string) : option Z :=
  strptime (last_component (stem z)) stamp_fmt.

(** [unlink] succeeds on a file and fails on a directory. *)
Definition is_dir (x : entry) : bool :=
  match x with Directory => true | _ => false end.

(** The sweep removes an entry when its name carries a timestamp before
    [expire] and it can be unlinked. *)
Definition swept (expire : Z) (z : string) (x : entry) : bool :=
  match embedded_timestamp z with
  | Some ts => (ts <? expire) && negb (is_dir x)
  | None => false
  end.

(** A row fails to decode: its timestamp is missing or does not parse,
    or the row is selected and its value is missing or not a number. *)
Definition undecodable (start end_ : Z) (flt : option string) (d : dict) : Prop :=
  match (let+ tsf := getitem d "timestamp" in py_fromisoformat tsf) with
  | Raise _ => True
  | Ok ts =>
      selects start end_ flt ts d = Ok true
      /\ is_ok (let+ vf := getitem d "value" in py_float vf) = false
  end.

(** The CSV files [read_logs] scans: the active file, and the members of
    the archives that [glob('*.zip')] lists. *)
Definition scanned (w : world) (rows : list row) : Prop :=
  (exists f, log_dir w !! current_file w = Some f /\ rows = f_rows f)
  \/ (exists z ms n,
        z ∈ glob_zip (archive_dir w)
        /\ archive_dir w !! z = Some (ZipArchive ms)
        /\ (n, rows) ∈ ms).





(** The log directory after [_open_file] on the name [n]: a file that is
    there is kept as it is, a new one starts with the header. *)
Definition reopened (t : Z) (n : string) (d : gmap string file)
    : gmap string file :=
  if exists_file d n then d else <[n := File [header] t]> d.

End Store.

(** ** Further notions *)

Section More.
Context `{Platform}.

(** An entry is one the call asked for: its timestamp lies between the
    bounds, and under a filter it carries that sensor id. *)
Definition selected_entry (start end_ : Z) (flt : option string) (x : LogEntry)
    : Prop :=
  start <= e_timestamp x <= end_
  /\ forall s, flt = Some s -> e_sensor_id x = Some s.


(** Whether a dot occurs in a text. *)
Fixpoint has_dot (s : string) : bool :=
  match s with
  | EmptyString => false
  | String c r => Ascii.eqb c "."%char || has_dot r
  end.




(** The test of [read_logs] on an entry it has decoded. *)
Definition matches (start end_ : Z) (flt : option string) (x : LogEntry) : bool :=
  (start <=? e_timestamp x) && (e_timestamp x <=? end_)
  && match flt with
     | None => true
     | Some s => bool_decide (e_sensor_id x = Some s)
     end.

End More.

(** ** The sensor and its observers (sensors/sensor.py)

    [Sensor] is the subject of the observers: [read] takes a raw value
    from [_generate], scales it, keeps it and hands it to every observer.
    The logger is such an observer. [_generate] is abstract in the base
    class (its subclasses draw from a random generator): the raw value is
    an input of [read] here. *)

(** An observer, by identity: the logger, or an observer that records
    what it is told (an object with [update], as the tests use, or a
    callable) and never raises. *)
Inductive observer : Type :=
| ObsLogger
| ObsRecorder (k : nat).

#[global] Instance observer_eq_dec : EqDecision observer.
Proof. solve_decision. Defined.

(** What a method of the sensor raises: [RuntimeError] of its own, or
    what an observer raised. *)
Inductive sensor_exn : Type :=
| RuntimeError
| ObserverRaised (x : exn).

Inductive outcome (A : Type) : Type :=
| Returned (a : A)
| Raised (x : sensor_exn).

Arguments Returned {A} a.
Arguments Raised {A} x.

Section Sensors.
Context `{Platform}.

(** The multiplication of floats, [raw * calibration_factor]. *)
Variable fmul : float -> float -> float.

(** The sensor object: the fields of its configuration the logger reads,
    the calibration factor, and what [__init__] sets up. *)
Record sensor_state : Type := SensorState {
  self_config : Sensor;
  calibration_factor : float;
  _observers : list observer;
  _active : bool;
  _last_value : option float
}.

Definition set_observers (l : list observer) (s : sensor_state) : sensor_state :=
  SensorState (self_config s) (calibration_factor s) l (_active s) (_last_value s).
Definition set_active (b : bool) (s : sensor_state) : sensor_state :=
  SensorState (self_config s) (calibration_factor s) (_observers s) b (_last_value s).
Definition set_last_value (v : option float) (s : sensor_state) : sensor_state :=
  SensorState (self_config s) (calibration_factor s) (_observers s) (_active s) v.

(** [Sensor.__init__] *)
Definition sensor_init (c : Sensor) (factor : float) : sensor_state :=
  SensorState c factor [] false None.

(** [Sensor.attach] *)
Definition attach (o : observer) (s : sensor_state) : sensor_state :=
  if decide (o ∈ _observers s) then s
  else set_observers (_observers s ++ [o]) s.

(** [list.remove]: the first occurrence goes. *)
Fixpoint list_remove (o : observer) (l : list observer) : list observer :=
  match l with
  | [] => []
  | x :: rest => if decide (x = o) then rest else x :: list_remove o rest
  end.

(** [Sensor.detach] *)
Definition detach (o : observer) (s : sensor_state) : sensor_state :=
  if decide (o ∈ _observers s) then set_observers (list_remove o (_observers s)) s
  else s.

(** [Sensor.start] and [Sensor.stop] *)
Definition start (s : sensor_state) : sensor_state := set_active true s.
Definition stop (s : sensor_state) : sensor_state := set_active false s.

(** The sensor with what its observers act on: the logger, and the
    notifications the recorders have taken, oldest first. *)
Record system : Type := System {
  sensor : sensor_state;
  logger : world;
  notifications : list (nat * Sensor * float)
}.

Definition set_sensor (s : sensor_state) (y : system) : system :=
  System s (logger y) (notifications y).
Definition set_logger (w : world) (y : system) : system :=
  System (sensor y) w (notifications y).
Definition record (k : nat) (subject : Sensor) (value : float) (y : system) : system :=
  System (sensor y) (logger y) (notifications y ++ [(k, subject, value)]).

(** [Sensor.notify]: the loop over [observers]. The logger is called
    through its [update], at the instant and with the fault of [e]; what
    it raises leaves the loop and the method. *)
Fixpoint notify (e : env) (subject : Sensor) (value : float)
    (observers : list observer) (y : system) : outcome unit * system :=
  match observers with
  | [] => (Returned tt, y)
  | ObsLogger :: rest =>
      match update e subject value (logger y) with
      | (Ok _, w') => notify e subject value rest (set_logger w' y)
      | (Raise x, w') => (Raised (ObserverRaised x), set_logger w' y)
      end
  | ObsRecorder k :: rest =>
      notify e subject value rest (record k subject value y)
  end.

(** [Sensor.read], with [raw] the value [_generate] returns. *)
Definition read (e : env) (raw : float) (y : system) : outcome float * system :=
  if _active (sensor y) then
    let calibrated := fmul raw (calibration_factor (sensor y)) in
    let y1 := set_sensor (set_last_value (Some calibrated) (sensor y)) y in
    match notify e (self_config (sensor y)) calibrated (_observers (sensor y)) y1 with
    | (Returned _, y2) => (Returned calibrated, y2)
    | (Raised x, y2) => (Raised x, y2)
    end
  else (Raised RuntimeError, y).

(** [Sensor.get_last] *)
Definition get_last (e : env) (raw : float) (y : system) : outcome float * system :=
  match _last_value (sensor y) with
  | None => read e raw y
  | Some v => (Returned v, y)
  end.

(** The recorders among observers, in their order. *)
Definition recorders (l : list observer) : list nat :=
  omap (fun o => match o with ObsRecorder k => Some k | ObsLogger => None end) l.

End Sensors.

(** ** Concrete runs, on the platform that runs *)

Module Demo.

Definition t0 : Z := Ref.datetime 2025 6 1 12 0 0 0.
Definition second : Z := usec_per_sec.

Definition thermometer : Sensor :=
  Sensor_ (SensorConfig_ "temp_1" "Thermometer" "C").
Definition hygrometer : Sensor :=
  Sensor_ (SensorConfig_ "hum_1" "Hygrometer" "%").

Definition at_ (t : Z) : env := Env t NoFault.

(** Rotation after two rows, thirty days of retention. *)
Definition cfg2 : cfg_values := Cfg "sensor_data.csv" 24 10 2 30.

Definition step_a : env * Sensor * float := (at_ (t0 + 1 * second), thermometer, 20).
Definition step_b : env * Sensor * float := (at_ (t0 + 2 * second), hygrometer, 55).
Definition step_c : env * Sensor * float := (at_ (t0 + 3 * second), thermometer, 22).

Definition started : world := (__init__ cfg2 (at_ t0) ∅ ∅).2.
Definition after_three : world := (run [step_a; step_b; step_c] started).2.

(** Rotation after every row, one day of retention: the second rotation,
    two days after the first, sweeps the first archive away. *)
Definition cfg1 : cfg_values := Cfg "sensor_data.csv" 24 10 1 1.
Definition late : env * Sensor * float :=
  (at_ (t0 + 1 * second + days 2), thermometer, 25).
Definition started1 : world := (__init__ cfg1 (at_ t0) ∅ ∅).2.
Definition rotated_once : world := (run [step_a] started1).2.
Definition rotated_twice : world := (run [step_a; late] started1).2.

(** Two rotations within one second: both archives get the same name. *)
Definition step_a' : env * Sensor * float :=
  (at_ (t0 + 1 * second + 500000), thermometer, 21).
Definition same_second : world := (run [step_a; step_a'] started1).2.


(** A log file left by an earlier run: three rows, one of them with a
    timestamp that is no timestamp. The file is two hours old. *)
Definition old_rows : list row :=
  [header;
   ["2025-06-01T09:59:58"; "temp_1"; "18.0"; "C"];
   ["yesterday"; "temp_1"; "19.0"; "C"];
   ["2025-06-01T10:00:00"; "temp_1"; "21.0"; "C"]].
Definition old_file : file := File old_rows (t0 - hours 2).
Definition old_files : gmap string file := {["sensor_data.csv" := old_file]}.

(** The same file without the row that does not decode. *)
Definition clean_files : gmap string file :=
  {["sensor_data.csv"
    := File [header;
             ["2025-06-01T09:59:58"; "temp_1"; "18.0"; "C"];
             ["2025-06-01T10:00:00"; "temp_1"; "21.0"; "C"]] (t0 - hours 2)]}.

(** An archive directory with an archive of March, a file whose name
    holds no timestamp, and a directory named like an archive of March. *)
Definition mixed_archives : gmap string entry :=
  {["sensor_data.csv.20250301120000.zip" := ZipArchive [("sensor_data.csv", [header])];
    "README.txt" := NotAZip;
    "kept.20250301120000.zip" := Directory]}.

(** One hour of age, three rows, ample size. *)
Definition cfg3 : cfg_values := Cfg "sensor_data.csv" 1 10 3 30.
Definition reopened_old : world := (__init__ cfg3 (at_ t0) old_files ∅).2.
Definition reopened_clean : world := (__init__ cfg3 (at_ t0) clean_files ∅).2.
Definition with_mixed_archives : world :=
  (__init__ cfg2 (at_ t0) ∅ mixed_archives).2.

(** A file created two hours ago by a logger that rotates every hour. *)
Definition fresh_two_hours_ago : world :=
  (__init__ cfg3 (at_ (t0 - hours 2)) ∅ ∅).2.

(** Rotation after every row and no retention; a call half a second
    after a whole second. *)
Definition cfg0 : cfg_values := Cfg "sensor_data.csv" 24 10 1 0.
Definition started0 : world := (__init__ cfg0 (at_ t0) ∅ ∅).2.
Definition half_past : env := at_ (t0 + 1 * second + 500000).

(** A log file that is there and empty. *)
Definition empty_files : gmap string file :=
  {["sensor_data.csv" := File [] (t0 - hours 2)]}.

(** A thermometer that doubles its raw values, started, with a recorder,
    the logger and another recorder attached, in that order. *)
Definition probe : sensor_state :=
  start (attach (ObsRecorder 2)
           (attach ObsLogger
              (attach (ObsRecorder 1) (sensor_init thermometer 2)))).

End Demo.

(** * Properties *)

Section Proofs.
Context `{Platform}.

(** ** Rows and dictionaries *)

Lemma encode_row (r : Reading) :
  encode r = [isoformat (r_time r); sensor_id (config (r_sensor r));
              str_float (r_value r); unit_ (config (r_sensor r))].
Proof.
  unfold encode, dict_to_row, make_rec, header. simpl.
  by simplify_map_eq.
Qed.







(** ** Sorting *)

Lemma insert_by_ts_perm (x : LogEntry) l : insert_by_ts x l ≡ₚ x :: l.
Proof.
  induction l as [|y l IH]; [done|]. simpl.
  destruct (e_timestamp x <=? e_timestamp y); [done|].
  rewrite IH. apply Permutation_swap.
Qed.

Lemma sorted_perm (l : list LogEntry) : sorted l ≡ₚ l.
Proof.
  induction l as [|x l IH]; [done|]. simpl.
  rewrite insert_by_ts_perm. by rewrite IH.
Qed.

Lemma insert_by_ts_sorted (x : LogEntry) l :
  StronglySorted ts_le l -> StronglySorted ts_le (insert_by_ts x l).
Proof.
  induction l as [|y l IH]; intros Hl; simpl.
  - repeat constructor.
  - apply StronglySorted_inv in Hl as [Hl Hy].
    destruct (e_timestamp x <=? e_timestamp y) eqn:Hxy.
    + apply Z.leb_le in Hxy. constructor; [by constructor|].
      constructor; [done|].
      eapply Forall_impl; [exact Hy|]. unfold ts_le. intros z Hz. lia.
    + apply Z.leb_gt in Hxy. constructor; [by apply IH|].
      rewrite insert_by_ts_perm. constructor; [unfold ts_le; lia | done].
Qed.

Lemma sorted_sorted (l : list LogEntry) : StronglySorted ts_le (sorted l).
Proof.
  induction l as [|x l IH]; simpl; [constructor|].
  by apply insert_by_ts_sorted.
Qed.

(** ** Methods, evaluated *)

Lemma needs_rotation_eval e w f :
  log_dir w !! current_file w = Some f ->
  _needs_rotation e w
  = (Ok (rotation_due (cfg w) (_line_count w) (now e) f), w).
Proof.
  intros Hf. unfold _needs_rotation, rotation_due, bind, gets, stat, ret.
  rewrite Hf.
  destruct (rotate_after (cfg w) <=? _line_count w); [done|].
  destruct (hours (rotate_every (cfg w)) <=? now e - f_mtime f); [done|].
  rewrite Hf. simpl.
  by destruct (max_size (cfg w) * 1024 * 1024 <=? st_size f).
Qed.

Lemma update_eval e sensor value w f :
  fp_open w = true ->
  log_dir w !! current_file w = Some f ->
  let f' := File (f_rows f ++ [encode (Reading_ _ (now e) sensor value)]) (now e) in
  update e sensor value w
  = if rotation_due (cfg w) (_line_count w + 1) (now e) f'
    then _rotate e (appended e sensor value w)
    else (Ok tt, appended e sensor value w).
Proof.
  intros Hopen Hf f'.
  unfold update. unfold bind at 1. unfold write_row. rewrite Hopen.
  unfold bind at 1. unfold modify at 1.
  unfold bind at 1.
  rewrite (needs_rotation_eval _ _ f').
  - cbn [cfg _line_count set_line_count set_log_dir].
    by destruct (rotation_due _ _ _ _).
  - simpl. rewrite lookup_alter_eq, Hf. done.
Qed.

Lemma open_file_eval e w :
  _open_file e w
  = (Ok tt, set_fp_open true
              (set_log_dir (reopened (now e) (current_file w) (log_dir w)) w)).
Proof.
  unfold _open_file, reopened, bind, gets, modify, write_row, ret.
  destruct (exists_file (log_dir w) (current_file w)) eqn:Hex; simpl.
  - by destruct w.
  - rewrite alter_insert_eq. by destruct w.
Qed.

Lemma rotate_eval e w f :
  log_dir w !! current_file w = Some f ->
  zip_fault e = NoFault ->
  archive_dir w !! archive_name (current_file w) (now e) <> Some Directory ->
  _rotate e w
  = (Ok tt,
     let n' := strftime (now e) (filename_pattern (cfg w)) in
     World (cfg w)
       (reopened (now e) n' (delete (current_file w) (log_dir w)))
       (sweep (now e - days (retention (cfg w)))
          (<[archive_name (current_file w) (now e)
             := ZipArchive [(current_file w, f_rows f)]]> (archive_dir w)))
       n' true 0).
Proof.
  intros Hf Hflt Hdir. destruct w as [c d a n o lc]. simpl in *.
  unfold _rotate, bind, modify, gets, zip_write, unlink_file. simpl.
  rewrite Hflt, Hf.
  destruct (a !! archive_name n (now e)) as [[]|] eqn:Ha; try done;
    simpl; rewrite Hf; rewrite open_file_eval; reflexivity.
Qed.

(** ** The reader on a well-formed store *)




(** ** The retention sweep *)

Lemma sweep_one_eq expire a z :
  sweep_one expire a z
  = match a !! z with
    | Some x => if swept expire z x then delete z a else a
    | None => a
    end.
Proof.
  unfold sweep_one, swept, embedded_timestamp, py_strptime, unlink_entry.
  destruct (strptime _ _) as [ts|]; cbn [rbind].
  - destruct (ts <? expire); cbn [andb].
    + destruct (a !! z) as [[]|]; done.
    + by destruct (a !! z).
  - by destruct (a !! z).
Qed.

Lemma sweep_one_lookup expire a z z' :
  sweep_one expire a z !! z'
  = match a !! z' with
    | Some x => if bool_decide (z' = z) && swept expire z' x then None else Some x
    | None => None
    end.
Proof.
  rewrite sweep_one_eq.
  destruct (decide (z' = z)) as [->|Hne].
  - rewrite bool_decide_eq_true_2 by done. cbn [andb].
    destruct (a !! z) as [x|] eqn:Hz; [|by rewrite Hz].
    destruct (swept expire z x); [by rewrite lookup_delete_eq | by rewrite Hz].
  - rewrite bool_decide_eq_false_2 by done. cbn [andb].
    destruct (a !! z) as [x|] eqn:Hz.
    + destruct (swept expire z x).
      * rewrite lookup_delete_ne by done. by destruct (a !! z').
      * by destruct (a !! z').
    + by destruct (a !! z').
Qed.

(** The loop of the sweep over any list of names: an entry goes when the
    loop reaches its name and the body removes it. *)
Lemma foldl_sweep_lookup expire zs a z' :
  foldl (sweep_one expire) a zs !! z'
  = match a !! z' with
    | Some x => if bool_decide (z' ∈ zs) && swept expire z' x then None else Some x
    | None => None
    end.
Proof.
  revert a. induction zs as [|z zs IH]; intros a.
  - cbn [foldl]. destruct (a !! z') as [x|]; [|done].
    by rewrite bool_decide_eq_false_2 by apply not_elem_of_nil.
  - cbn [foldl]. rewrite IH, sweep_one_lookup.
    destruct (a !! z') as [x|]; [|done].
    destruct (decide (z' = z)) as [->|Hne].
    + rewrite (bool_decide_eq_true_2 (z = z)) by done.
      rewrite (bool_decide_eq_true_2 (z ∈ z :: zs)) by apply list_elem_of_here.
      cbn [andb]. destruct (swept expire z x) eqn:Hs; [done|].
      by rewrite Hs, andb_false_r.
    + rewrite (bool_decide_eq_false_2 (z' = z)) by done. cbn [andb].
      destruct (decide (z' ∈ zs)) as [Hin|Hnin].
      * rewrite (bool_decide_eq_true_2 (z' ∈ z :: zs)) by (by apply list_elem_of_further).
        by rewrite (bool_decide_eq_true_2 (z' ∈ zs)) by done.
      * rewrite (bool_decide_eq_false_2 (z' ∈ z :: zs))
          by (rewrite elem_of_cons; intros [|]; done).
        by rewrite (bool_decide_eq_false_2 (z' ∈ zs)) by done.
Qed.

Lemma sweep_lookup expire a z :
  sweep expire a !! z
  = match a !! z with
    | Some x => if swept expire z x then None else Some x
    | None => None
    end.
Proof.
  unfold sweep. rewrite foldl_sweep_lookup.
  destruct (a !! z) as [x|] eqn:Hz; [|done].
  rewrite bool_decide_eq_true_2; [done|].
  unfold iterdir. apply list_elem_of_fmap. exists (z, x). split; [done|].
  by apply elem_of_map_to_list.
Qed.


(** ** Rows that do not decode *)

(** A turn of the loop either raises or goes on with the rest. *)
Lemma scan_cons_cases start end_ flt d rest acc :
  (exists x, scan start end_ flt (d :: rest) acc = Raise x)
  \/ (exists acc', scan start end_ flt (d :: rest) acc
                   = scan start end_ flt rest acc').
Proof.
  cbn [scan].
  destruct (getitem d "timestamp") as [tsf|x]; cbn [rbind]; [|by left; eexists].
  destruct (py_fromisoformat tsf) as [ts|x]; cbn [rbind]; [|by left; eexists].
  destruct (selects start end_ flt ts d) as [[]|x]; cbn [rbind];
    [|by right; eexists|by left; eexists].
  destruct (getitem d "sensor_id") as [sid|x]; cbn [rbind]; [|by left; eexists].
  destruct (getitem d "value") as [vf|x]; cbn [rbind]; [|by left; eexists].
  destruct (py_float vf) as [v|x]; cbn [rbind]; [|by left; eexists].
  destruct (getitem d "unit") as [u|x]; cbn [rbind]; [|by left; eexists].
  right. by eexists.
Qed.

Lemma scan_cons_undecodable start end_ flt d rest acc :
  undecodable start end_ flt d ->
  is_ok (scan start end_ flt (d :: rest) acc) = false.
Proof.
  unfold undecodable. cbn [scan].
  destruct (getitem d "timestamp") as [tsf|x]; cbn [rbind]; [|done].
  destruct (py_fromisoformat tsf) as [ts|x]; cbn [rbind]; [|done].
  intros [-> Hv]. cbn [rbind].
  destruct (getitem d "sensor_id") as [sid|x]; cbn [rbind]; [|done].
  destruct (getitem d "value") as [vf|x]; cbn [rbind]; [|done].
  cbn [rbind] in Hv.
  destruct (py_float vf) as [v|x]; cbn [rbind]; done.
Qed.

Lemma scan_elem_undecodable start end_ flt reader d acc :
  d ∈ reader ->
  undecodable start end_ flt d ->
  is_ok (scan start end_ flt reader acc) = false.
Proof.
  intros Hin Hd. revert acc.
  induction reader as [|d' rest IH]; intros acc.
  - by apply elem_of_nil in Hin.
  - apply elem_of_cons in Hin as [<- | Hin].
    + by apply scan_cons_undecodable.
    + destruct (scan_cons_cases start end_ flt d' rest acc) as [[x ->] | [acc' ->]];
        [done | by apply IH].
Qed.

Lemma scan_members_fails start end_ flt ms n rows acc :
  (n, rows) ∈ ms ->
  (forall acc', is_ok (scan start end_ flt (DictReader rows) acc') = false) ->
  is_ok (scan_members start end_ flt ms acc) = false.
Proof.
  intros Hin Hrows. revert acc.
  induction ms as [|m' rest IH]; intros acc; cbn [scan_members].
  - by apply elem_of_nil in Hin.
  - apply elem_of_cons in Hin as [<- | Hin]; cbn [snd].
    + specialize (Hrows acc). by destruct (scan _ _ _ _ acc).
    + destruct (scan start end_ flt (DictReader m'.2) acc); cbn [rbind];
        [by apply IH | done].
Qed.

Lemma scan_archives_fails start end_ flt a zs z acc :
  z ∈ zs ->
  (forall acc',
     is_ok (let+ ms := open_zip a z in scan_members start end_ flt ms acc') = false) ->
  is_ok (scan_archives start end_ flt a zs acc) = false.
Proof.
  intros Hin Hz. revert acc.
  induction zs as [|z' rest IH]; intros acc; cbn [scan_archives].
  - by apply elem_of_nil in Hin.
  - apply elem_of_cons in Hin as [<- | Hin].
    + specialize (Hz acc). destruct (open_zip a z) as [ms|]; cbn [rbind] in *; [|done].
      by destruct (scan_members _ _ _ ms acc).
    + destruct (open_zip a z') as [ms|]; cbn [rbind]; [|done].
      destruct (scan_members start end_ flt ms acc); cbn [rbind];
        [by apply IH | done].
Qed.

(** C8, as the code has it. [read_logs] has no policy for rows that do
    not decode: when a file it scans (the active file, or a member of a
    listed archive) holds such a row, the whole read raises and returns no
    row at all. *)
Theorem read_logs_aborts_on_undecodable_row (w : world) start end_ flt rows d :
  scanned w rows ->
  d ∈ DictReader rows ->
  undecodable start end_ flt d ->
  is_ok (read_logs w start end_ flt) = false.
Proof.
  intros Hscan Hin Hd.
  assert (Hrows : forall acc, is_ok (scan start end_ flt (DictReader rows) acc) = false)
    by (intros acc; by eapply scan_elem_undecodable).
  unfold read_logs, read_logs_between, exists_file.
  destruct Hscan as [(f & Hf & ->) | (z & ms & n & Hz & Ha & Hm)].
  - rewrite Hf. specialize (Hrows []).
    by destruct (scan start end_ flt (DictReader (f_rows f)) []).
  - set (active := if _ : bool then _ else _).
    destruct active as [entries|]; cbn [rbind]; [|done].
    assert (Hfail : is_ok (scan_archives start end_ flt (archive_dir w)
                             (glob_zip (archive_dir w)) entries) = false).
    { eapply scan_archives_fails; [exact Hz|].
      intros acc'. unfold open_zip. rewrite Ha. cbn [rbind].
      by eapply scan_members_fails. }
    by destruct (scan_archives _ _ _ _ _ entries).
Qed.

(** ** Files that vanish under the reader *)

(** C9, as the code has it. [read_logs] tests [exists()] and lists the
    archives, then opens the files, and handles no error in between: an
    active file that is gone when tested contributes no rows, but a file
    that vanishes after the test or the listing and before it is opened
    makes the read raise. *)
Theorem read_logs_raises_on_vanished_file (seen opened : world) start end_ flt :
  (exists_file (log_dir seen) (current_file seen) = false ->
   read_logs_between seen opened start end_ flt
   = let+ entries := scan_archives start end_ flt (archive_dir opened)
                       (glob_zip (archive_dir seen)) [] in
     Ok (sorted entries))
  /\ (exists_file (log_dir seen) (current_file seen) = true ->
      log_dir opened !! current_file seen = None ->
      read_logs_between seen opened start end_ flt = Raise FileNotFoundError)
  /\ (forall z, z ∈ glob_zip (archive_dir seen) ->
        archive_dir opened !! z = None ->
        is_ok (read_logs_between seen opened start end_ flt) = false).
Proof.
  unfold read_logs_between. split; [|split].
  - by intros ->.
  - by intros -> ->.
  - intros z Hz Hgone.
    set (active := if _ : bool then _ else _).
    destruct active as [entries|]; cbn [rbind]; [|done].
    assert (Hfail : is_ok (scan_archives start end_ flt (archive_dir opened)
                             (glob_zip (archive_dir seen)) entries) = false).
    { eapply scan_archives_fails; [exact Hz|].
      intros acc'. unfold open_zip. by rewrite Hgone. }
    by destruct (scan_archives _ _ _ _ _ entries).
Qed.

(** ** A failed rotation *)



(** ** Appends that do not rotate *)

Lemma st_size_app rows rows' t t' :
  st_size (File (rows ++ rows') t)
  = st_size (File rows t') + st_size (File rows' t').
Proof.
  unfold st_size. cbn [f_rows].
  induction rows as [|r rows IH]; cbn [foldr app]; [lia|].
  rewrite IH. lia.
Qed.

Lemma st_size_cons r rows t t' :
  st_size (File (r :: rows) t) = line_bytes r + st_size (File rows t').
Proof. reflexivity. Qed.

Lemma st_size_nonneg rows t :
  Forall (fun r => 0 <= line_bytes r) rows -> 0 <= st_size (File rows t).
Proof.
  unfold st_size. cbn [f_rows].
  induction 1 as [|r rows Hr _ IH]; cbn [foldr]; lia.
Qed.

Lemma hours_pos h : 0 < h -> 0 < hours h.
Proof. unfold hours, usec_per_sec. lia. Qed.

(** Right after the write the file is as old as the write: the age test
    of [_needs_rotation] compares the threshold with zero. *)
Lemma rotation_due_after_write c lc t rows :
  0 < rotate_every c ->
  rotation_due c lc t (File rows t)
  = (rotate_after c <=? lc) || (max_size c * 1024 * 1024 <=? st_size (File rows t)).
Proof.
  intros Hh. unfold rotation_due. cbn [f_mtime].
  replace (hours (rotate_every c) <=? t - t) with false; [by rewrite orb_false_r|].
  symmetry. apply Z.leb_gt. pose proof (hours_pos _ Hh). lia.
Qed.

Lemma update_quiet e sensor value w f :
  fp_open w = true ->
  log_dir w !! current_file w = Some f ->
  _line_count w + 1 < rotate_after (cfg w) ->
  0 < rotate_every (cfg w) ->
  st_size (File (f_rows f ++ [encode (Reading_ _ (now e) sensor value)]) (now e))
    < max_size (cfg w) * 1024 * 1024 ->
  update e sensor value w = (Ok tt, appended e sensor value w).
Proof.
  intros Hopen Hf Hcount Hage Hsize.
  rewrite (update_eval _ _ _ _ f) by done. cbn zeta.
  rewrite rotation_due_after_write by done.
  replace (rotate_after (cfg w) <=? _line_count w + 1) with false
    by (symmetry; apply Z.leb_gt; lia).
  replace (max_size (cfg w) * 1024 * 1024 <=? _) with false
    by (symmetry; apply Z.leb_gt; lia).
  done.
Qed.

Lemma appended_fields e sensor value w f :
  log_dir w !! current_file w = Some f ->
  cfg (appended e sensor value w) = cfg w
  /\ archive_dir (appended e sensor value w) = archive_dir w
  /\ current_file (appended e sensor value w) = current_file w
  /\ fp_open (appended e sensor value w) = fp_open w
  /\ _line_count (appended e sensor value w) = _line_count w + 1
  /\ log_dir (appended e sensor value w)
     = <[current_file w
         := File (f_rows f ++ [encode (Reading_ _ (now e) sensor value)]) (now e)]>
         (log_dir w).
Proof.
  intros Hf. unfold appended. cbn. repeat split.
  apply map_eq. intros k. destruct (decide (k = current_file w)) as [->|Hk].
  - by rewrite lookup_alter_eq, lookup_insert_eq, Hf.
  - by rewrite lookup_alter_ne, lookup_insert_ne.
Qed.

Lemma appended_all_fields steps w f :
  log_dir w !! current_file w = Some f ->
  cfg (appended_all steps w) = cfg w
  /\ archive_dir (appended_all steps w) = archive_dir w
  /\ current_file (appended_all steps w) = current_file w
  /\ fp_open (appended_all steps w) = fp_open w
  /\ _line_count (appended_all steps w) = _line_count w + Z.of_nat (length steps)
  /\ log_dir (appended_all steps w)
     = <[current_file w
         := File (f_rows f ++ map encode (map reading_of steps))
                 (last_write (f_mtime f) steps)]>
         (log_dir w).
Proof.
  revert w f. induction steps as [|[[e sensor] value] steps IH]; intros w f Hf.
  - cbn. rewrite app_nil_r. repeat split; [lia|].
    symmetry. apply insert_id. by destruct f.
  - cbn [appended_all foldl fst snd].
    destruct (appended_fields e sensor value w f Hf)
      as (Hc & Ha & Hn & Ho & Hl & Hd).
    edestruct (IH (appended e sensor value w)) as (Hc' & Ha' & Hn' & Ho' & Hl' & Hd').
    { rewrite Hn, Hd. apply lookup_insert_eq. }
    unfold appended_all in *.
    rewrite Hc', Ha', Hn', Ho', Hl', Hd', Hc, Ha, Hn, Ho, Hl, Hd.
    repeat split; [cbn [length]; lia|].
    rewrite insert_insert_eq. cbn [f_rows f_mtime map last_write foldl fst snd reading_of].
    by rewrite <- app_assoc.
Qed.

Lemma run_quiet steps w f :
  fp_open w = true ->
  log_dir w !! current_file w = Some f ->
  _line_count w + Z.of_nat (length steps) < rotate_after (cfg w) ->
  0 < rotate_every (cfg w) ->
  Forall (fun st => 0 <= line_bytes (encode (reading_of st))) steps ->
  st_size (File (f_rows f ++ map encode (map reading_of steps)) 0)
    < max_size (cfg w) * 1024 * 1024 ->
  run steps w = (Ok tt, appended_all steps w).
Proof.
  revert w f. induction steps as [|[[e sensor] value] steps IH];
    intros w f Hopen Hf Hcount Hage Hpos Hsize; [done|].
  cbn [run]. apply Forall_cons in Hpos as [Hpos1 Hpos].
  cbn [map] in Hsize. cbn [length] in Hcount.
  destruct (appended_fields e sensor value w f Hf)
    as (Hc & Ha & Hn & Ho & Hl & Hd).
  rewrite (update_quiet _ _ _ _ f); try done; try lia.
  - cbn [appended_all foldl fst snd].
    eapply IH; rewrite ?Hc, ?Hn, ?Ho, ?Hl; try done; try lia.
    + rewrite Hd. apply lookup_insert_eq.
    + cbn [f_rows]. by rewrite <- app_assoc.
  - assert (0 <= st_size (File (map encode (map reading_of steps)) 0)) as Hrest.
    { apply st_size_nonneg. rewrite !Forall_fmap.
      eapply Forall_impl; [exact Hpos|]. done. }
    rewrite (st_size_app _ (_ :: _) 0 0), (st_size_cons _ _ 0 0) in Hsize.
    rewrite (st_size_app _ [_] _ 0), (st_size_cons _ [] 0 0).
    change (st_size (File [] 0)) with 0.
    change (reading_of (e, sensor, value))
      with (Reading_ _ (now e) sensor value) in Hsize.
    lia.
Qed.

(** ** The rotation predicate *)

(** C4, where the code departs from it. [_needs_rotation] is the OR of
    three [>=] tests ([needs_rotation_eval]), but its age is [now] minus
    [st_mtime], the time of the last write, not the time the file was
    created; and [update] asks right after it has written a row. So for a
    positive [rotate_every_hours] the answer [update] acts on is the OR of
    the count and size tests alone, however long ago the file was created
    or last written before this call. *)
Theorem age_trigger_is_reset_by_the_write (e : env) sensor value (w : world) f :
  fp_open w = true ->
  log_dir w !! current_file w = Some f ->
  0 < rotate_every (cfg w) ->
  let f' := File (f_rows f ++ [encode (Reading_ _ (now e) sensor value)]) (now e) in
  let due := (rotate_after (cfg w) <=? _line_count w + 1)
             || (max_size (cfg w) * 1024 * 1024 <=? st_size f') in
  _needs_rotation e (appended e sensor value w)
  = (Ok due, appended e sensor value w)
  /\ update e sensor value w
     = if due then _rotate e (appended e sensor value w)
       else (Ok tt, appended e sensor value w).
Proof.
  intros Hopen Hf Hage f' due.
  destruct (appended_fields e sensor value w f Hf)
    as (Hc & Ha & Hn & Ho & Hl & Hd).
  subst f' due. split.
  - erewrite needs_rotation_eval.
    + rewrite Hc, Hl. by rewrite rotation_due_after_write.
    + rewrite Hn, Hd. apply lookup_insert_eq.
  - rewrite (update_eval _ _ _ _ f) by done. cbn zeta.
    by rewrite rotation_due_after_write.
Qed.

(** ** The row counter of a new logger *)


(** ** Rotation by count *)




(** ** Names of archives *)

Lemma append_nil t : "" +:+ t = t.
Proof. reflexivity. Qed.

Lemma append_cons c s t : String c s +:+ t = String c (s +:+ t).
Proof. reflexivity. Qed.



Lemma string_app_assoc s t u : (s +:+ t) +:+ u = s +:+ t +:+ u.
Proof.
  induction s as [|c s IH]; [done|].
  rewrite !append_cons. by rewrite IH.
Qed.



(** ** The store of a logger that loses nothing *)










(** ** Runs, step by step *)

Lemma pair_of_fst {A B : Type} (p : A * B) (a : A) : p.1 = a -> p = (a, p.2).
Proof. destruct p. cbn. by intros ->. Qed.

Lemma update_on_closed_handle e sensor value (w : world) :
  fp_open w = false -> update e sensor value w = (Raise ValueError, w).
Proof. intros Hc. unfold update, bind, write_row. by rewrite Hc. Qed.

Lemma run_snoc steps e sensor value (w : world) :
  (run steps w).1 = Ok tt ->
  run (steps ++ [(e, sensor, value)]) w = update e sensor value (run steps w).2.
Proof.
  revert w. induction steps as [|[[e1 s1] v1] steps IH]; intros w; cbn [run app].
  - intros _. cbn [snd]. by destruct (update e sensor value w) as [[[]|x] w'].
  - destruct (update e1 s1 v1 w) as [[[]|x] w']; [apply IH | done].
Qed.

(** ** What the reader returns from any store *)

Lemma selects_true start end_ flt ts d :
  selects start end_ flt ts d = Ok true ->
  start <= ts <= end_
  /\ forall s, flt = Some s -> getitem d "sensor_id" = Ok (Some s).
Proof.
  unfold selects.
  destruct (start <=? ts) eqn:Hlo; [|done].
  destruct (ts <=? end_) eqn:Hhi; [|done]. cbn [andb].
  apply Z.leb_le in Hlo, Hhi. intros Hsel. split; [lia|].
  intros s ->.
  destruct (getitem d "sensor_id") as [v|]; [|done]. cbn [rbind] in Hsel.
  injection Hsel as Hsel. by apply bool_decide_eq_true_1 in Hsel as ->.
Qed.

Lemma scan_sound start end_ flt reader acc l :
  Forall (selected_entry start end_ flt) acc ->
  scan start end_ flt reader acc = Ok l ->
  Forall (selected_entry start end_ flt) l.
Proof.
  revert acc. induction reader as [|d rest IH]; intros acc Hacc; cbn [scan].
  - by intros [= <-].
  - destruct (getitem d "timestamp") as [tsf|]; cbn [rbind]; [|done].
    destruct (py_fromisoformat tsf) as [ts|]; cbn [rbind]; [|done].
    destruct (selects start end_ flt ts d) as [[]|] eqn:Hsel; cbn [rbind];
      [|by apply IH|done].
    apply selects_true in Hsel as [Hts Hflt].
    destruct (getitem d "sensor_id") as [sid|] eqn:Hsid; cbn [rbind]; [|done].
    destruct (getitem d "value") as [vf|]; cbn [rbind]; [|done].
    destruct (py_float vf) as [v|]; cbn [rbind]; [|done].
    destruct (getitem d "unit") as [u|]; cbn [rbind]; [|done].
    apply IH. apply Forall_app. split; [done|].
    constructor; [|done]. split; [done|].
    intros s Hs. cbn. specialize (Hflt s Hs). congruence.
Qed.

Lemma scan_members_sound start end_ flt ms acc l :
  Forall (selected_entry start end_ flt) acc ->
  scan_members start end_ flt ms acc = Ok l ->
  Forall (selected_entry start end_ flt) l.
Proof.
  revert acc. induction ms as [|m rest IH]; intros acc Hacc; cbn [scan_members].
  - by intros [= <-].
  - destruct (scan start end_ flt (DictReader m.2) acc) as [es|] eqn:Hes;
      cbn [rbind]; [|done].
    apply IH. by eapply scan_sound.
Qed.

Lemma scan_archives_sound start end_ flt a zs acc l :
  Forall (selected_entry start end_ flt) acc ->
  scan_archives start end_ flt a zs acc = Ok l ->
  Forall (selected_entry start end_ flt) l.
Proof.
  revert acc. induction zs as [|z rest IH]; intros acc Hacc; cbn [scan_archives].
  - by intros [= <-].
  - destruct (open_zip a z) as [ms|]; cbn [rbind]; [|done].
    destruct (scan_members start end_ flt ms acc) as [es|] eqn:Hes;
      cbn [rbind]; [|done].
    apply IH. by eapply scan_members_sound.
Qed.

(** X1. Whatever the files hold, rows of this logger or of others, when
    [read_logs] returns (with or without a rotation under way) the list is
    in ascending order of timestamp and every entry of it has its
    timestamp between [start] and [end], bounds included, and, under a
    filter, the sensor id asked for. *)
Theorem read_logs_returns_only_selected_entries_in_order
    (seen opened : world) start end_ flt l :
  read_logs_between seen opened start end_ flt = Ok l ->
  StronglySorted ts_le l /\ Forall (selected_entry start end_ flt) l.
Proof.
  unfold read_logs_between.
  set (active := if _ : bool then _ else _).
  destruct active as [es|] eqn:Hactive; cbn [rbind]; [|done].
  destruct (scan_archives _ _ _ _ _ es) as [es'|] eqn:Harch; cbn [rbind]; [|done].
  intros [= <-]. split; [apply sorted_sorted|].
  rewrite sorted_perm.
  eapply scan_archives_sound; [|exact Harch].
  subst active.
  destruct (exists_file _ _); [|by injection Hactive as <-].
  destruct (log_dir opened !! _) as [f|]; [|done].
  by eapply scan_sound.
Qed.

(** ** A logger that started on an empty log directory *)





(** ** The stamp in the name of an archive *)

Lemma rsplit_dot_no_dot s : has_dot s = false -> rsplit_dot s = None.
Proof.
  induction s as [|c r IH]; [done|]. cbn [has_dot rsplit_dot].
  intros [Hc Hr]%orb_false_elim. by rewrite (IH Hr), Hc.
Qed.

Lemma rsplit_dot_app b a :
  has_dot a = false -> rsplit_dot (b +:+ "." +:+ a) = Some (b, a).
Proof.
  intros Ha. induction b as [|c b IH].
  - rewrite append_nil, append_cons, append_nil. cbn [rsplit_dot].
    by rewrite (rsplit_dot_no_dot a Ha).
  - rewrite append_cons. cbn [rsplit_dot]. by rewrite IH.
Qed.

Lemma nonempty_app_dot b a : nonempty (b +:+ "." +:+ a) = true.
Proof. destruct b; [by rewrite append_nil, append_cons | by rewrite append_cons]. Qed.

Lemma archive_name_split n t :
  archive_name n t = (n +:+ "." +:+ strftime t stamp_fmt) +:+ "." +:+ "zip".
Proof.
  unfold archive_name. rewrite !string_app_assoc.
  by rewrite (append_cons _ "" "zip"), append_nil.
Qed.

Lemma stem_archive_name n t :
  stem (archive_name n t) = n +:+ "." +:+ strftime t stamp_fmt.
Proof.
  rewrite archive_name_split. unfold stem.
  rewrite rsplit_dot_app by done. by rewrite nonempty_app_dot.
Qed.

Lemma last_component_stem_archive_name n t :
  has_dot (strftime t stamp_fmt) = false ->
  last_component (stem (archive_name n t)) = strftime t stamp_fmt.
Proof.
  intros Hdot. rewrite stem_archive_name. unfold last_component.
  by rewrite rsplit_dot_app.
Qed.

(** X3. The name [_rotate] gives an archive and the way
    [_cleanup_archives] reads a name agree: when the stamp [strftime]
    renders holds no dot, the text the cleanup hands to [strptime] for the
    archive of a rotation is that stamp, whatever dots the name of the log
    file has. *)
Theorem archive_name_embeds_its_stamp (n : string) (t : Z) :
  has_dot (strftime t stamp_fmt) = false ->
  last_component (stem (archive_name n t)) = strftime t stamp_fmt
  /\ embedded_timestamp (archive_name n t)
     = strptime (strftime t stamp_fmt) stamp_fmt.
Proof.
  intros Hdot. unfold embedded_timestamp.
  by rewrite last_component_stem_archive_name.
Qed.

(** ** The archive of a rotation *)

Lemma rotate_archive_dir e w f :
  log_dir w !! current_file w = Some f ->
  zip_fault e = NoFault ->
  archive_dir w !! archive_name (current_file w) (now e) <> Some Directory ->
  exists w',
    _rotate e w = (Ok tt, w')
    /\ archive_dir w'
       = sweep (now e - days (retention (cfg w)))
           (<[archive_name (current_file w) (now e)
              := ZipArchive [(current_file w, f_rows f)]]> (archive_dir w))
    /\ log_dir w'
       = reopened (now e) (strftime (now e) (filename_pattern (cfg w)))
                  (delete (current_file w) (log_dir w)).
Proof.
  intros Hf Hfault Hdir. rewrite (rotate_eval e w f Hf Hfault Hdir).
  eexists. split; [reflexivity|]. by cbv zeta.
Qed.

(** X4. A rotation that succeeds leaves under the name of its archive
    the rows of the file it rotated, or nothing when its own sweep takes
    that name for expired; what the archive directory held under that name
    before, an earlier archive of the same second included, is gone. The
    other entries are those the sweep leaves of the directory as it was. *)
Theorem rotation_replaces_the_archive_of_its_name e (w : world) f :
  let z := archive_name (current_file w) (now e) in
  let written := ZipArchive [(current_file w, f_rows f)] in
  let expire := now e - days (retention (cfg w)) in
  log_dir w !! current_file w = Some f ->
  zip_fault e = NoFault ->
  archive_dir w !! z <> Some Directory ->
  exists w',
    _rotate e w = (Ok tt, w')
    /\ archive_dir w' !! z
       = (if swept expire z written then None else Some written)
    /\ forall z', z' <> z ->
         archive_dir w' !! z' = sweep expire (archive_dir w) !! z'.
Proof.
  intros z written expire Hf Hfault Hdir.
  destruct (rotate_archive_dir e w f Hf Hfault Hdir) as (w' & Hrot & Ha & _).
  exists w'. split; [done|]. rewrite Ha. fold z written expire. split.
  - by rewrite sweep_lookup, lookup_insert_eq.
  - intros z' Hne. by rewrite !sweep_lookup, lookup_insert_ne.
Qed.

(** X5. Retention can undo a rotation at once: when the stamp of the
    rotation, read back by [strptime], lies before [now - retention_days]
    (with [retention_days = 0], as soon as the clock shows a fraction of a
    second), the rotation deletes the archive it has just written; the
    rows of the rotated file are then in no file: the log directory has,
    under the old name, nothing or a file with the header alone. *)
Theorem rotation_sweeps_its_own_archive e (w : world) f ts :
  log_dir w !! current_file w = Some f ->
  zip_fault e = NoFault ->
  archive_dir w !! archive_name (current_file w) (now e) <> Some Directory ->
  has_dot (strftime (now e) stamp_fmt) = false ->
  strptime (strftime (now e) stamp_fmt) stamp_fmt = Some ts ->
  ts < now e - days (retention (cfg w)) ->
  exists w',
    _rotate e w = (Ok tt, w')
    /\ archive_dir w' !! archive_name (current_file w) (now e) = None
    /\ forall f', log_dir w' !! current_file w = Some f' -> f_rows f' = [header].
Proof.
  intros Hf Hfault Hdir Hdot Hts Hlt.
  destruct (rotate_archive_dir e w f Hf Hfault Hdir) as (w' & Hrot & Ha & Hd).
  exists w'. split; [done|]. rewrite Ha, Hd. split.
  - rewrite sweep_lookup, lookup_insert_eq. unfold swept, embedded_timestamp.
    rewrite (last_component_stem_archive_name _ _ Hdot).
    rewrite Hts. cbn [is_dir negb]. by apply Z.ltb_lt in Hlt as ->.
  - intros f'. unfold reopened.
    destruct (exists_file _ _) eqn:Hex.
    + by rewrite lookup_delete_eq.
    + destruct (decide (strftime (now e) (filename_pattern (cfg w)) = current_file w))
        as [->|Hne].
      * rewrite lookup_insert_eq. by intros [= <-].
      * rewrite lookup_insert_ne by done. by rewrite lookup_delete_eq.
Qed.

(** ** The closed logger *)

(** X6. [close] closes the handle and nothing else, a second [close]
    changes nothing, and [read_logs] returns what it returned before; from
    then on [update] raises [ValueError] before it writes or counts
    anything, so that a run of appends stops at its first. *)
Theorem update_after_close_raises e sensor value rest (w : world) :
  let closed := (close w).2 in
  close w = (Ok tt, closed)
  /\ close closed = (Ok tt, closed)
  /\ closed = set_fp_open false w
  /\ update e sensor value closed = (Raise ValueError, closed)
  /\ run ((e, sensor, value) :: rest) closed = (Raise ValueError, closed)
  /\ forall start end_ flt,
       read_logs closed start end_ flt = read_logs w start end_ flt.
Proof.
  intros closed.
  assert (Hupd : update e sensor value closed = (Raise ValueError, closed))
    by by apply update_on_closed_handle.
  split; [done|]. split; [done|]. split; [done|]. split; [done|].
  split; [|done]. cbn [run]. by rewrite Hupd.
Qed.

(** ** Rows that are shorter or longer than the header *)

Lemma to_dict_short3 (a b c : string) :
  to_dict header [a; b; c]
  = <["unit" := None]>
      (<["value" := Some c]>
         (<["sensor_id" := Some b]> (<["timestamp" := Some a]> ∅))).
Proof. reflexivity. Qed.

Lemma to_dict_short2 (a b : string) :
  to_dict header [a; b]
  = <["unit" := None]>
      (<["value" := None]>
         (<["sensor_id" := Some b]> (<["timestamp" := Some a]> ∅))).
Proof. reflexivity. Qed.

Lemma to_dict_short1 (a : string) :
  to_dict header [a]
  = <["unit" := None]>
      (<["value" := None]>
         (<["sensor_id" := None]> (<["timestamp" := Some a]> ∅))).
Proof. reflexivity. Qed.

(** X7. What [read_logs] makes of a row whose length is not that of the
    header, when its timestamp decodes and lies between the bounds. A row
    without its unit is returned, with [None] for unit; a row without its
    value aborts the read with [TypeError]; a row with its timestamp alone
    aborts the read when no filter is given and is passed over in silence
    under any filter; fields beyond the fourth are not looked at. *)
Theorem rows_shorter_or_longer_than_the_header
    start end_ flt (ts sid v u : string) (extra : list string) t x rest acc :
  fromisoformat ts = Some t ->
  float_of_str v = Some x ->
  start <= t <= end_ ->
  flt = None \/ flt = Some sid ->
  scan start end_ flt (to_dict header [ts; sid; v] :: rest) acc
  = scan start end_ flt rest (acc ++ [LogEntry_ _ t (Some sid) x None])
  /\ scan start end_ flt (to_dict header [ts; sid] :: rest) acc = Raise TypeError
  /\ scan start end_ None (to_dict header [ts] :: rest) acc = Raise TypeError
  /\ (forall s, scan start end_ (Some s) (to_dict header [ts] :: rest) acc
                = scan start end_ (Some s) rest acc)
  /\ to_dict header (ts :: sid :: v :: u :: extra) = to_dict header [ts; sid; v; u].
Proof.
  intros Hts Hv [Hlo Hhi] Hflt.
  apply Z.leb_le in Hlo, Hhi.
  assert (Hsel : forall d, selects start end_ None t d = Ok true).
  { intros d. unfold selects. by rewrite Hlo, Hhi. }
  split; [|split; [|split; [|split]]].
  - cbn [scan]. rewrite to_dict_short3. unfold getitem, selects.
    simplify_map_eq. rewrite Hlo, Hhi. cbn [andb].
    destruct Hflt as [->| ->]; [done|].
    unfold getitem. simplify_map_eq. by rewrite bool_decide_eq_true_2.
  - cbn [scan]. rewrite to_dict_short2. unfold getitem, selects.
    simplify_map_eq. rewrite Hlo, Hhi. cbn [andb].
    destruct Hflt as [->| ->]; [done|].
    unfold getitem. simplify_map_eq. by rewrite bool_decide_eq_true_2.
  - cbn [scan]. rewrite to_dict_short1. unfold getitem, selects.
    simplify_map_eq. by rewrite Hlo, Hhi.
  - intros s. cbn [scan]. rewrite to_dict_short1. unfold getitem, selects.
    simplify_map_eq. rewrite Hlo, Hhi. cbn [andb].
    unfold getitem. by simplify_map_eq.
  - reflexivity.
Qed.

(** ** A logger that starts on an empty file *)

Lemma zip_fill_keys (ks : list string) (r : row) : (zip_fill ks r).*1 = ks.
Proof.
  revert r. induction ks as [|k ks IH]; intros r; [done|].
  destruct r as [|v vs]; cbn [zip_fill fmap list_fmap fst]; f_equal; apply IH.
Qed.

Lemma foldl_insert_lookup_notin (l : list (string * option string)) (d : dict) k :
  k ∉ l.*1 -> foldl (fun d kv => <[kv.1 := kv.2]> d) d l !! k = d !! k.
Proof.
  revert d. induction l as [|[k' v] l IH]; intros d Hk; [done|].
  cbn [foldl]. rewrite fmap_cons in Hk.
  apply not_elem_of_cons in Hk as [Hne Hk].
  rewrite IH by done. by apply lookup_insert_ne.
Qed.

Lemma getitem_missing (ks : list string) (r : row) k :
  k ∉ ks -> getitem (to_dict ks r) k = Raise KeyError.
Proof.
  intros Hk. unfold getitem, to_dict.
  by rewrite foldl_insert_lookup_notin by by rewrite zip_fill_keys.
Qed.

(** X8. A logger that finds its log file there and empty writes no
    header (only a file that is not there gets one), so the first row it
    appends stands where the header should: [read_logs] takes that row for
    the field names and returns nothing of it, and once a second row is
    in the file the read raises [KeyError], for that row has no field named
    [timestamp]. *)
Theorem existing_empty_file_gets_no_header
    (c : cfg_values) (e : env) files arch t st rest start end_ flt :
  let n := strftime (now e) (filename_pattern c) in
  let steps := st :: rest in
  files !! n = Some (File [] t) ->
  glob_zip arch = [] ->
  Z.of_nat (length steps) < rotate_after c ->
  0 < rotate_every c ->
  Forall (fun st => 0 <= line_bytes (encode (reading_of st))) steps ->
  st_size (File (map encode (map reading_of steps)) 0) < max_size c * 1024 * 1024 ->
  "timestamp" ∉ encode (reading_of st) ->
  exists w0 w,
    __init__ c e files arch = (Ok tt, w0)
    /\ log_dir w0 = files
    /\ run steps w0 = (Ok tt, w)
    /\ log_dir w !! n
       = Some (File (map encode (map reading_of steps)) (last_write t steps))
    /\ read_logs w start end_ flt
       = match rest with [] => Ok [] | _ :: _ => Raise KeyError end.
Proof.
  intros n steps Hf Hglob Hcount Hage Hpos Hsize Hkey.
  set (w0 := World c files arch n true 0).
  exists w0, (appended_all steps w0).
  destruct (appended_all_fields steps w0 _ Hf) as (Hc & Ha & Hn & Ho & Hl & Hd).
  cbn [f_rows f_mtime app] in Hd.
  split; [|split; [done|split; [|split]]].
  - unfold __init__, bind. rewrite open_file_eval.
    cbn [current_file log_dir set_fp_open set_log_dir cfg archive_dir _line_count].
    unfold reopened, exists_file. fold n. by rewrite Hf.
  - by apply (run_quiet steps w0 (File [] t)).
  - rewrite Hd. apply lookup_insert_eq.
  - unfold read_logs, read_logs_between. rewrite Hn, Ha.
    cbn [current_file archive_dir w0]. rewrite Hglob.
    unfold exists_file. rewrite Hd, lookup_insert_eq. cbn [f_rows].
    subst steps. cbn [map DictReader].
    destruct rest as [|st2 rest']; [done|].
    cbn [map List.filter]. rewrite (encode_row (reading_of st2)).
    cbn [is_blank negb map scan].
    by rewrite getitem_missing.
Qed.

(** ** Appends in distinct seconds, within the retention *)




(** ** Reads of the same store *)

Lemma selects_matches start end_ flt d ts sid v u :
  getitem d "sensor_id" = Ok sid ->
  selects start end_ flt ts d = Ok (matches start end_ flt (LogEntry_ _ ts sid v u)).
Proof.
  intros Hsid. unfold selects, matches. cbn [e_timestamp e_sensor_id].
  destruct ((start <=? ts) && (ts <=? end_)); [|done].
  destruct flt as [s|]; [|done]. by rewrite Hsid.
Qed.

Lemma selects_false_narrower start end_ flt start' end_' flt' ts d :
  start <= start' -> end_' <= end_ -> flt = None \/ flt = flt' ->
  selects start end_ flt ts d = Ok false ->
  selects start' end_' flt' ts d = Ok false.
Proof.
  intros Hlo Hhi Hflt. unfold selects.
  destruct ((start' <=? ts) && (ts <=? end_')) eqn:Hin'; [|done].
  apply andb_prop in Hin' as [H1%Z.leb_le H2%Z.leb_le].
  replace (start <=? ts) with true by (symmetry; apply Z.leb_le; lia).
  replace (ts <=? end_) with true by (symmetry; apply Z.leb_le; lia).
  cbn [andb]. destruct Hflt as [->| ->]; done.
Qed.

Lemma scan_narrower start end_ flt start' end_' flt' reader acc l :
  start <= start' -> end_' <= end_ -> flt = None \/ flt = flt' ->
  scan start end_ flt reader acc = Ok l ->
  exists l0,
    l = acc ++ l0
    /\ forall acc',
         scan start' end_' flt' reader acc'
         = Ok (acc' ++ filter (matches start' end_' flt') l0).
Proof.
  intros Hlo Hhi Hflt. revert acc.
  induction reader as [|d rest IH]; intros acc Hscan.
  - injection Hscan as <-. exists []. split; [by rewrite app_nil_r|].
    intros acc'. cbn. by rewrite app_nil_r.
  - cbn [scan] in Hscan |- *.
    destruct (getitem d "timestamp") as [tsf|]; cbn [rbind] in *; [|done].
    destruct (py_fromisoformat tsf) as [ts|]; cbn [rbind] in *; [|done].
    destruct (selects start end_ flt ts d) as [[]|] eqn:Hsel;
      cbn [rbind] in *; [| |done].
    + destruct (getitem d "sensor_id") as [sid|] eqn:Hsid; cbn [rbind] in *; [|done].
      destruct (getitem d "value") as [vf|]; cbn [rbind] in *; [|done].
      destruct (py_float vf) as [v|]; cbn [rbind] in *; [|done].
      destruct (getitem d "unit") as [u|]; cbn [rbind] in *; [|done].
      destruct (IH _ Hscan) as (l1 & -> & Hrest).
      exists (LogEntry_ _ ts sid v u :: l1).
      split; [by rewrite <- app_assoc|].
      intros acc'. rewrite (selects_matches start' end_' flt' d ts sid v u Hsid).
      cbn [rbind]. rewrite filter_cons.
      destruct (matches start' end_' flt' _) eqn:Hm.
      * rewrite decide_True by done. rewrite Hrest. by rewrite <- app_assoc.
      * rewrite decide_False by (by intros []). apply Hrest.
    + destruct (IH _ Hscan) as (l1 & -> & Hrest).
      exists l1. split; [done|]. intros acc'.
      rewrite (selects_false_narrower start end_ flt start' end_' flt' ts d)
        by done.
      cbn [rbind]. apply Hrest.
Qed.

Lemma scan_members_narrower start end_ flt start' end_' flt' ms acc l :
  start <= start' -> end_' <= end_ -> flt = None \/ flt = flt' ->
  scan_members start end_ flt ms acc = Ok l ->
  exists l0,
    l = acc ++ l0
    /\ forall acc',
         scan_members start' end_' flt' ms acc'
         = Ok (acc' ++ filter (matches start' end_' flt') l0).
Proof.
  intros Hlo Hhi Hflt. revert acc.
  induction ms as [|m rest IH]; intros acc Hscan.
  - injection Hscan as <-. exists []. split; [by rewrite app_nil_r|].
    intros acc'. cbn. by rewrite app_nil_r.
  - cbn [scan_members] in Hscan |- *.
    destruct (scan start end_ flt (DictReader m.2) acc) as [es|] eqn:Hes;
      cbn [rbind] in Hscan; [|done].
    destruct (scan_narrower _ _ _ _ _ _ _ _ _ Hlo Hhi Hflt Hes) as (l1 & -> & H1).
    destruct (IH _ Hscan) as (l2 & -> & H2).
    exists (l1 ++ l2). split; [by rewrite <- app_assoc|].
    intros acc'. rewrite H1. cbn [rbind]. rewrite H2.
    by rewrite filter_app, <- app_assoc.
Qed.

Lemma scan_archives_narrower start end_ flt start' end_' flt' a zs acc l :
  start <= start' -> end_' <= end_ -> flt = None \/ flt = flt' ->
  scan_archives start end_ flt a zs acc = Ok l ->
  exists l0,
    l = acc ++ l0
    /\ forall acc',
         scan_archives start' end_' flt' a zs acc'
         = Ok (acc' ++ filter (matches start' end_' flt') l0).
Proof.
  intros Hlo Hhi Hflt. revert acc.
  induction zs as [|z rest IH]; intros acc Hscan.
  - injection Hscan as <-. exists []. split; [by rewrite app_nil_r|].
    intros acc'. cbn. by rewrite app_nil_r.
  - cbn [scan_archives] in Hscan |- *.
    destruct (open_zip a z) as [ms|]; cbn [rbind] in *; [|done].
    destruct (scan_members start end_ flt ms acc) as [es|] eqn:Hes;
      cbn [rbind] in Hscan; [|done].
    destruct (scan_members_narrower _ _ _ _ _ _ _ _ _ Hlo Hhi Hflt Hes)
      as (l1 & -> & H1).
    destruct (IH _ Hscan) as (l2 & -> & H2).
    exists (l1 ++ l2). split; [by rewrite <- app_assoc|].
    intros acc'. rewrite H1. cbn [rbind]. rewrite H2.
    by rewrite filter_app, <- app_assoc.
Qed.

Lemma insert_by_ts_least (x : LogEntry) l :
  Forall (ts_le x) l -> insert_by_ts x l = x :: l.
Proof.
  destruct 1 as [|y l Hy _]; [done|]. cbn [insert_by_ts].
  by apply Z.leb_le in Hy as ->.
Qed.

Lemma filter_insert_by_ts (P : LogEntry -> bool) x l :
  StronglySorted ts_le l ->
  filter P (insert_by_ts x l)
  = if P x then insert_by_ts x (filter P l) else filter P l.
Proof.
  induction 1 as [|y l Hsorted IH Hy].
  - cbn [insert_by_ts]. rewrite filter_cons, filter_nil.
    destruct (P x); [by rewrite decide_True | by rewrite decide_False by by intros []].
  - cbn [insert_by_ts]. destruct (e_timestamp x <=? e_timestamp y) eqn:Hxy.
    + rewrite (filter_cons _ x). destruct (P x) eqn:HPx;
        [rewrite decide_True by done | by rewrite decide_False by by intros []].
      rewrite insert_by_ts_least; [done|].
      apply Z.leb_le in Hxy. apply Forall_forall.
      intros z [_ Hz]%list_elem_of_filter.
      apply elem_of_cons in Hz as [->|Hz]; [done|].
      rewrite Forall_forall in Hy. specialize (Hy z Hz).
      unfold ts_le in *. lia.
    + rewrite (filter_cons _ y), IH, (filter_cons _ y).
      destruct (P y) eqn:HPy.
      * rewrite !decide_True by done. destruct (P x); [|done].
        cbn [insert_by_ts]. by rewrite Hxy.
      * rewrite !decide_False by (by intros []). done.
Qed.

Lemma sorted_filter (P : LogEntry -> bool) l :
  sorted (filter P l) = filter P (sorted l).
Proof.
  induction l as [|x l IH]; [done|].
  change (sorted (x :: l)) with (insert_by_ts x (sorted l)).
  rewrite filter_insert_by_ts by apply sorted_sorted.
  rewrite filter_cons. destruct (P x).
  - rewrite decide_True by done.
    change (sorted (x :: filter P l)) with (insert_by_ts x (sorted (filter P l))).
    by rewrite IH.
  - by rewrite decide_False by by intros [].
Qed.

(** X15. Reads of one store agree: when [read_logs] returns for some
    bounds, with no filter (or with a filter), then for any bounds within
    those, and any filter (or that filter), it returns too, and what it
    returns is what the wider read returned less the entries outside the
    narrower bounds or of other sensors, in the same order. So a
    narrower read never raises where a wider one returns. *)
Theorem narrower_read_is_part_of_the_wider
    (seen opened : world) start end_ flt start' end_' flt' l :
  start <= start' -> end_' <= end_ ->
  flt = None \/ flt = flt' ->
  read_logs_between seen opened start end_ flt = Ok l ->
  read_logs_between seen opened start' end_' flt'
  = Ok (filter (matches start' end_' flt') l).
Proof.
  intros Hlo Hhi Hflt. unfold read_logs_between.
  destruct (exists_file _ _).
  - destruct (log_dir opened !! _) as [f|]; [|done].
    destruct (scan start end_ flt _ []) as [es|] eqn:Hes; cbn [rbind]; [|done].
    destruct (scan_narrower _ _ _ _ _ _ _ _ _ Hlo Hhi Hflt Hes) as (l1 & -> & H1).
    destruct (scan_archives start end_ flt _ _ _) as [es'|] eqn:Hes';
      cbn [rbind]; [|done].
    destruct (scan_archives_narrower _ _ _ _ _ _ _ _ _ _ Hlo Hhi Hflt Hes')
      as (l2 & -> & H2).
    intros [= <-]. rewrite H1. cbn [rbind app]. rewrite H2. cbn [rbind].
    by rewrite <- sorted_filter, filter_app.
  - cbn [rbind].
    destruct (scan_archives start end_ flt _ _ _) as [es'|] eqn:Hes';
      cbn [rbind]; [|done].
    destruct (scan_archives_narrower _ _ _ _ _ _ _ _ _ _ Hlo Hhi Hflt Hes')
      as (l2 & -> & H2).
    intros [= <-]. rewrite H2. cbn [rbind app].
    by rewrite <- sorted_filter.
Qed.

(** ** Sweeps, one after the other *)

Lemma swept_later expire expire' z x :
  expire <= expire' -> swept expire z x = true -> swept expire' z x = true.
Proof.
  intros Hle. unfold swept. destruct (embedded_timestamp z) as [ts|]; [|done].
  intros [Hlt ->]%andb_prop. apply Z.ltb_lt in Hlt.
  rewrite andb_true_r. apply Z.ltb_lt. lia.
Qed.

Lemma sweep_sweep expire expire' a :
  expire <= expire' -> sweep expire' (sweep expire a) = sweep expire' a.
Proof.
  intros Hle. apply map_eq. intros z. rewrite !sweep_lookup.
  destruct (a !! z) as [x|]; [|done].
  destruct (swept expire z x) eqn:Hsw; [|done].
  by rewrite (swept_later _ _ _ _ Hle Hsw).
Qed.

(** X16. Sweeps compose: [_cleanup_archives] run at an instant and then
    again at the same or a later instant leaves the state the later run
    alone would leave. In particular a second sweep at the same instant
    deletes nothing more. *)
Theorem later_sweep_subsumes_the_earlier (e1 e2 : env) (w : world) :
  now e1 <= now e2 ->
  (_cleanup_archives e1 >>> _cleanup_archives e2) w = _cleanup_archives e2 w
  /\ (_cleanup_archives e2 >>> _cleanup_archives e2) w = _cleanup_archives e2 w.
Proof.
  intros Hle.
  assert (Hgen : forall e, now e <= now e2 ->
            (_cleanup_archives e >>> _cleanup_archives e2) w
            = _cleanup_archives e2 w).
  { intros e He. unfold _cleanup_archives, bind, gets, modify, set_archive_dir.
    cbn [cfg archive_dir log_dir current_file fp_open _line_count].
    by rewrite sweep_sweep by lia. }
  split; [by apply Hgen | by apply Hgen].
Qed.

End Proofs.

(** * Properties of the sensor *)

Section SensorProofs.
Context `{Platform}.
Variable fmul : float -> float -> float.

(** ** The list of observers *)

Lemma list_remove_notin o l : o ∉ l -> list_remove o l = l.
Proof.
  induction l as [|x l IH]; [done|]. intros [Hne Hl]%not_elem_of_cons.
  cbn [list_remove]. rewrite decide_False by done. by rewrite IH.
Qed.

Lemma list_remove_snoc o l : o ∉ l -> list_remove o (l ++ [o]) = l.
Proof.
  induction l as [|x l IH]; intros Hl.
  - cbn. by rewrite decide_True.
  - apply not_elem_of_cons in Hl as [Hne Hl]. cbn [app list_remove].
    rewrite decide_False by done. by rewrite IH.
Qed.

Lemma elem_of_list_remove_ne o o' l :
  o' <> o -> o' ∈ list_remove o l <-> o' ∈ l.
Proof.
  intros Hne. induction l as [|x l IH]; [done|]. cbn [list_remove].
  destruct (decide (x = o)) as [->|Hx].
  - rewrite elem_of_cons. split; [by right | by intros [?|?]].
  - rewrite !elem_of_cons, IH. done.
Qed.

Lemma NoDup_list_remove o l :
  NoDup l -> NoDup (list_remove o l) /\ o ∉ list_remove o l.
Proof.
  induction 1 as [|x l Hx Hl IH]; [split; [constructor | apply not_elem_of_nil]|].
  cbn [list_remove]. destruct (decide (x = o)) as [->|Hne]; [done|].
  destruct IH as [IH1 IH2]. split.
  - constructor; [|done]. by rewrite elem_of_list_remove_ne.
  - apply not_elem_of_cons. split; [done|done].
Qed.

Lemma set_observers_id (s : sensor_state) : set_observers (_observers s) s = s.
Proof. by destruct s. Qed.

(** X10. [attach] and [detach] keep the list of observers free of
    duplicates, so that [notify] calls every observer once: an observer
    that is attached is in the list once, however often it is attached;
    one that is detached is not in it; the other observers stay as they
    are; and detaching an observer that was attached anew gives back the
    sensor as it was. *)
Theorem observers_stay_distinct (o : observer) (s : sensor_state) :
  NoDup (_observers s) ->
  (NoDup (_observers (attach o s)) /\ o ∈ _observers (attach o s))
  /\ (NoDup (_observers (detach o s)) /\ o ∉ _observers (detach o s))
  /\ attach o (attach o s) = attach o s
  /\ (o ∉ _observers s -> detach o (attach o s) = s)
  /\ (forall o', o' <> o ->
        (o' ∈ _observers (attach o s) <-> o' ∈ _observers s)
        /\ (o' ∈ _observers (detach o s) <-> o' ∈ _observers s)).
Proof.
  intros Hnd.
  assert (Hin : o ∈ _observers (attach o s)).
  { unfold attach. destruct (decide (o ∈ _observers s)); [done|].
    cbn [_observers set_observers]. set_solver. }
  split; [split; [|done]|split; [|split; [|split]]].
  - unfold attach. destruct (decide (o ∈ _observers s)); [done|].
    cbn [_observers set_observers]. apply NoDup_app.
    split; [done|]. split; [|apply NoDup_singleton].
    intros x Hx ->%list_elem_of_singleton. done.
  - unfold detach. destruct (decide (o ∈ _observers s)); [|done].
    cbn [_observers set_observers]. by apply NoDup_list_remove.
  - unfold attach at 1. by rewrite decide_True.
  - intros Hnew. unfold attach. rewrite decide_False by done.
    unfold detach. cbn [_observers set_observers].
    rewrite decide_True by set_solver.
    rewrite list_remove_snoc by done.
    by destruct s.
  - intros o' Hne. split.
    + unfold attach. destruct (decide (o ∈ _observers s)); [done|].
      cbn [_observers set_observers].
      rewrite elem_of_app, list_elem_of_singleton.
      split; [by intros [?|?] | by left].
    + unfold detach. destruct (decide (o ∈ _observers s)); [|done].
      cbn [_observers set_observers]. by apply elem_of_list_remove_ne.
Qed.

(** ** Reading *)

(** X11. A sensor does not read unless it was started: [read] on a
    sensor as [__init__] leaves it, or on one that was stopped, raises
    [RuntimeError], changes nothing and notifies no observer, whichever
    are attached. [get_last] on a stopped sensor returns the value of the
    last read when there was one, and raises otherwise. *)
Theorem stopped_sensor_reads_nothing
    e raw (y : system) (c : Sensor) factor (attached : list observer) w ns :
  let stopped := set_sensor (stop (sensor y)) y in
  let fresh := System (foldr attach (sensor_init c factor) attached) w ns in
  read fmul e raw stopped = (Raised RuntimeError, stopped)
  /\ get_last fmul e raw stopped
     = match _last_value (sensor y) with
       | Some v => (Returned v, stopped)
       | None => (Raised RuntimeError, stopped)
       end
  /\ read fmul e raw fresh = (Raised RuntimeError, fresh)
  /\ get_last fmul e raw fresh = (Raised RuntimeError, fresh).
Proof.
  intros stopped fresh.
  assert (Hfresh : _active (sensor fresh) = false /\ _last_value (sensor fresh) = None).
  { subst fresh. cbn [sensor]. induction attached as [|o l IH]; [done|].
    cbn [foldr]. unfold attach. by destruct (decide _). }
  destruct Hfresh as [Hact Hlast].
  split; [done|]. split.
  - unfold get_last. cbn [stopped set_sensor sensor stop set_active _last_value].
    by destruct (_last_value (sensor y)).
  - unfold get_last, read. by rewrite Hlast, Hact.
Qed.

Lemma notify_recorders e subject value obs (y : system) :
  ObsLogger ∉ obs ->
  notify e subject value obs y
  = (Returned tt,
     System (sensor y) (logger y)
            (notifications y
             ++ map (fun k => (k, subject, value)) (recorders obs))).
Proof.
  revert y. induction obs as [|o obs IH]; intros y Hl.
  - cbn. rewrite app_nil_r. by destruct y.
  - apply not_elem_of_cons in Hl as [Hne Hl].
    destruct o as [|k]; [done|]. cbn [notify].
    rewrite IH by done. unfold record, recorders. cbn.
    by rewrite <- app_assoc.
Qed.

Lemma notify_upto_logger e subject value pre post (y : system) :
  ObsLogger ∉ pre ->
  notify e subject value (pre ++ ObsLogger :: post) y
  = let y1 := System (sensor y) (logger y)
                     (notifications y
                      ++ map (fun k => (k, subject, value)) (recorders pre)) in
    match update e subject value (logger y) with
    | (Ok _, w') => notify e subject value post (set_logger w' y1)
    | (Raise x, w') => (Raised (ObserverRaised x), set_logger w' y1)
    end.
Proof.
  revert y. induction pre as [|o pre IH]; intros y Hl.
  - cbn [app notify recorders omap map]. cbv zeta. rewrite app_nil_r.
    by destruct y.
  - apply not_elem_of_cons in Hl as [Hne Hl].
    destruct o as [|k]; [done|]. cbn [app notify].
    rewrite IH by done. unfold record, recorders. cbn.
    by rewrite <- app_assoc.
Qed.

Lemma recorders_app l k : recorders (l ++ k) = recorders l ++ recorders k.
Proof. unfold recorders. apply omap_app. Qed.

Lemma read_logger_returns e raw (y : system) pre post w' :
  let s := sensor y in
  let calibrated := fmul raw (calibration_factor s) in
  _active s = true ->
  _observers s = pre ++ ObsLogger :: post ->
  ObsLogger ∉ pre -> ObsLogger ∉ post ->
  update e (self_config s) calibrated (logger y) = (Ok tt, w') ->
  read fmul e raw y
  = (Returned calibrated,
     System (set_last_value (Some calibrated) s) w'
            (notifications y
             ++ map (fun k => (k, self_config s, calibrated))
                    (recorders (_observers s)))).
Proof.
  intros s calibrated Hact Hobs Hpre Hpost Hup.
  unfold read. fold s. rewrite Hact. cbv zeta. fold calibrated.
  rewrite Hobs, notify_upto_logger by done. cbv zeta.
  cbn [logger set_sensor]. rewrite Hup.
  rewrite notify_recorders by done.
  cbn [sensor logger notifications set_logger set_sensor].
  rewrite recorders_app, map_app.
  cbn [recorders omap]. by rewrite <- app_assoc.
Qed.

Lemma list_remove_middle o pre post :
  o ∉ pre -> list_remove o (pre ++ o :: post) = pre ++ post.
Proof.
  induction pre as [|x pre IH]; intros Hpre.
  - cbn. by rewrite decide_True.
  - apply not_elem_of_cons in Hpre as [Hne Hpre]. cbn [app list_remove].
    rewrite decide_False by done. by rewrite IH.
Qed.

(** X12. [read] on a started sensor whose logger returns: the value
    returned is the raw value times the calibration factor; it is kept as
    the last value; the logger, attached once, is called once with the
    sensor and that value; and every recorder takes one notification of
    that value, in the order of attachment. Once the logger is detached,
    the same read leaves the logger as it is and notifies the same
    recorders. *)
Theorem read_notifies_every_observer_once e raw (y : system) pre post w' :
  let s := sensor y in
  let calibrated := fmul raw (calibration_factor s) in
  let told := notifications y
              ++ map (fun k => (k, self_config s, calibrated))
                     (recorders (pre ++ post)) in
  _active s = true ->
  _observers s = pre ++ ObsLogger :: post ->
  ObsLogger ∉ pre -> ObsLogger ∉ post ->
  update e (self_config s) calibrated (logger y) = (Ok tt, w') ->
  read fmul e raw y
  = (Returned calibrated, System (set_last_value (Some calibrated) s) w' told)
  /\ read fmul e raw (set_sensor (detach ObsLogger s) y)
     = (Returned calibrated,
        System (set_last_value (Some calibrated) (detach ObsLogger s))
               (logger y) told).
Proof.
  intros s calibrated told Hact Hobs Hpre Hpost Hup.
  assert (Hrec : recorders (_observers s) = recorders (pre ++ post)).
  { by rewrite Hobs, !recorders_app. }
  split.
  - rewrite (read_logger_returns e raw y pre post w') by done.
    fold s calibrated. by rewrite Hrec.
  - assert (Hdet : detach ObsLogger s = set_observers (pre ++ post) s).
    { unfold detach. rewrite Hobs, list_remove_middle by done.
      apply decide_True. set_solver. }
    rewrite Hdet. unfold read.
    cbn [sensor set_sensor _active set_observers calibration_factor
         self_config _observers].
    fold s. rewrite Hact. cbv zeta. fold calibrated.
    rewrite notify_recorders by (apply not_elem_of_app; done).
    done.
Qed.

(** X13. When the logger raises (as a closed logger does), [read]
    raises what it raised. The value is by then kept as the last value,
    and the recorders attached before the logger have taken it; those
    attached after the logger are not notified. [get_last] then returns
    that value and notifies no one. *)
Theorem read_raises_what_the_logger_raises
    e raw (y : system) pre post x w' e2 raw2 :
  let s := sensor y in
  let calibrated := fmul raw (calibration_factor s) in
  let after :=
    System (set_last_value (Some calibrated) s) w'
           (notifications y
            ++ map (fun k => (k, self_config s, calibrated)) (recorders pre)) in
  _active s = true ->
  _observers s = pre ++ ObsLogger :: post ->
  ObsLogger ∉ pre ->
  update e (self_config s) calibrated (logger y) = (Raise x, w') ->
  read fmul e raw y = (Raised (ObserverRaised x), after)
  /\ get_last fmul e2 raw2 after = (Returned calibrated, after).
Proof.
  intros s calibrated after Hact Hobs Hpre Hup. split; [|done].
  unfold read. fold s. rewrite Hact. cbv zeta. fold calibrated.
  rewrite Hobs, notify_upto_logger by done. cbv zeta.
  cbn [logger set_sensor]. by rewrite Hup.
Qed.


End SensorProofs.

(** * The properties at work

    Each theorem above that has hypotheses is applied here to a run of
    [Demo]; the claims the code does not meet are refuted on such runs. *)

Import Demo.

(** Closes an equation between closed terms by evaluating both sides. *)
Ltac by_evaluation :=
  lazymatch goal with
  | |- @eq ?T _ ?r => exact_no_check (@eq_refl T r)
  end.




(** Two rotations within one second write the same archive name: the
    second archive replaces the first. *)
Example same_second_rotations_overwrite :
  run [step_a; step_a'] started1 = (Ok tt, same_second)
  /\ read_logs same_second t0 (t0 + days 3) None = Ok [entry_of (reading_of step_a')].
Proof.
  split; [|by_evaluation].
  refine (pair_of_fst (run [step_a; step_a'] started1) (Ok tt) _). by_evaluation.
Qed.


(** The scenario of the specification: rotation after two rows, three
    appends A, B, C; one archive holds A and B, the active file holds C
    alone, and the reader returns A, B, C in that order. *)
Example scenario_of_the_specification :
  map_to_list (archive_dir after_three)
  = [("sensor_data.csv.20250601120002.zip",
      ZipArchive [("sensor_data.csv",
                   csv_of [reading_of step_a; reading_of step_b])])]
  /\ map_to_list (log_dir after_three)
     = [("sensor_data.csv", File (csv_of [reading_of step_c]) (t0 + 3 * second))]
  /\ read_logs after_three (t0 + 1 * second) (t0 + 3 * second) None
     = Ok [entry_of (reading_of step_a); entry_of (reading_of step_b);
           entry_of (reading_of step_c)].
Proof. split; [reflexivity|]. split; reflexivity. Qed.

(** C4 at work: the logger rotates every hour and created its file two
    hours ago; the append at [t0] finds no rotation due. *)
Lemma age_trigger_is_reset_by_the_write_witness :
  hours (rotate_every cfg3)
    <= t0 - f_mtime (File [header] (t0 - hours 2))
  /\ _needs_rotation (at_ t0) (appended (at_ t0) thermometer 20 fresh_two_hours_ago)
     = (Ok false, appended (at_ t0) thermometer 20 fresh_two_hours_ago)
  /\ update (at_ t0) thermometer 20 fresh_two_hours_ago
     = (Ok tt, appended (at_ t0) thermometer 20 fresh_two_hours_ago).
Proof.
  split; [discriminate|].
  apply (age_trigger_is_reset_by_the_write (H := RefPlatform)
           (at_ t0) thermometer 20 fresh_two_hours_ago
           (File [header] (t0 - hours 2))).
  - reflexivity.
  - by_evaluation.
  - reflexivity.
Defined.





(** C7 at work, thirty days of retention, on the first of June: the
    archive of March goes, the file whose name holds no timestamp stays,
    and so does the directory, named like an archive of March, that
    cannot be unlinked. *)
Example cleanup_archives_at_work :
  let swept_dir := archive_dir (_cleanup_archives (at_ t0) with_mixed_archives).2 in
  (_cleanup_archives (at_ t0) with_mixed_archives).1 = Ok tt
  /\ swept_dir !! "sensor_data.csv.20250301120000.zip" = None
  /\ swept_dir !! "README.txt" = Some NotAZip
  /\ swept_dir !! "kept.20250301120000.zip" = Some Directory
  /\ size swept_dir = 2%nat.
Proof. cbv zeta. repeat (split; [by_evaluation|]). by_evaluation. Qed.

(** C8 refuted as stated: the file holds three rows, the second with a
    timestamp that is no timestamp; the read raises [ValueError] and
    returns neither of the two rows that decode, which it returns when
    the bad row is not there. *)
Lemma undecodable_row_aborts_the_read :
  read_logs reopened_old (t0 - days 1) t0 None = Raise ValueError
  /\ read_logs reopened_clean (t0 - days 1) t0 None
     = Ok [LogEntry_ _ (Ref.datetime 2025 6 1 9 59 58 0) (Some "temp_1") 18 (Some "C");
           LogEntry_ _ (Ref.datetime 2025 6 1 10 0 0 0) (Some "temp_1") 21 (Some "C")].
Proof. split; by_evaluation. Qed.

(** C8, as the code has it, at work on that file. *)
Lemma read_logs_aborts_on_undecodable_row_witness :
  is_ok (read_logs reopened_old (t0 - days 1) t0 None) = false.
Proof.
  apply (read_logs_aborts_on_undecodable_row (H := RefPlatform)
           reopened_old (t0 - days 1) t0 None old_rows
           (to_dict header ["yesterday"; "temp_1"; "19.0"; "C"])).
  - left. exists old_file. split; [by_evaluation | reflexivity].
  - apply list_elem_of_further, list_elem_of_here.
  - exact I.
Defined.

(** C9 refuted as stated: the reader lists the archive of the first
    rotation; before it opens it, the rotation of another append sweeps
    that archive away; the read raises [FileNotFoundError]. *)
Lemma vanished_archive_aborts_the_read :
  glob_zip (archive_dir rotated_once) = ["sensor_data.csv.20250601120001.zip"]
  /\ archive_dir rotated_twice !! "sensor_data.csv.20250601120001.zip" = None
  /\ update late.1.1 late.1.2 late.2 rotated_once = (Ok tt, rotated_twice)
  /\ read_logs_between rotated_once rotated_twice t0 (t0 + days 3) None
     = Raise FileNotFoundError.
Proof.
  split; [by_evaluation|]. split; [by_evaluation|]. split; [|by_evaluation].
  refine (eq_trans
            (pair_of_fst (update late.1.1 late.1.2 late.2 rotated_once) (Ok tt) _) _);
    [by_evaluation|].
  refine (f_equal (fun p : result unit * world => (Ok tt, p.2))
            (eq_sym (run_snoc [step_a] late.1.1 late.1.2 late.2 started1 _))).
  by_evaluation.
Qed.


(** X1 at work on the file another run left: the two rows of that file. *)
Lemma read_logs_returns_only_selected_entries_in_order_witness :
  let l := [LogEntry_ _ (Ref.datetime 2025 6 1 9 59 58 0) (Some "temp_1") 18 (Some "C");
            LogEntry_ _ (Ref.datetime 2025 6 1 10 0 0 0) (Some "temp_1") 21 (Some "C")] in
  StronglySorted ts_le l
  /\ Forall (selected_entry (t0 - days 1) t0 (Some "temp_1")) l.
Proof.
  apply (read_logs_returns_only_selected_entries_in_order (H := RefPlatform)
           reopened_clean reopened_clean (t0 - days 1) t0 (Some "temp_1")).
  by_evaluation.
Defined.


(** X3 at work on the archive of the first rotation of the scenario. *)
Lemma archive_name_embeds_its_stamp_witness :
  last_component (stem (archive_name "sensor_data.csv" (t0 + 1 * second)))
  = strftime (t0 + 1 * second) stamp_fmt
  /\ embedded_timestamp (archive_name "sensor_data.csv" (t0 + 1 * second))
     = strptime (strftime (t0 + 1 * second) stamp_fmt) stamp_fmt.
Proof.
  apply (archive_name_embeds_its_stamp (H := RefPlatform)
           "sensor_data.csv" (t0 + 1 * second)).
  by_evaluation.
Defined.

(** X4 at work: a second rotation within the second of the first finds
    the archive of the first under its name and replaces it. *)
Lemma rotation_replaces_the_archive_of_its_name_witness :
  archive_dir rotated_once !! "sensor_data.csv.20250601120001.zip"
  = Some (ZipArchive [("sensor_data.csv", csv_of [reading_of step_a])])
  /\ exists w',
       _rotate half_past rotated_once = (Ok tt, w')
       /\ archive_dir w' !! archive_name (current_file rotated_once) (now half_past)
          = (if swept (now half_past - days (retention (cfg rotated_once)))
                      (archive_name (current_file rotated_once) (now half_past))
                      (ZipArchive [(current_file rotated_once,
                                    f_rows (File [header] (t0 + 1 * second)))])
             then None
             else Some (ZipArchive [(current_file rotated_once,
                                     f_rows (File [header] (t0 + 1 * second)))]))
       /\ forall z',
            z' <> archive_name (current_file rotated_once) (now half_past) ->
            archive_dir w' !! z'
            = sweep (now half_past - days (retention (cfg rotated_once)))
                    (archive_dir rotated_once) !! z'.
Proof.
  split; [by_evaluation|].
  apply (rotation_replaces_the_archive_of_its_name (H := RefPlatform)
           half_past rotated_once (File [header] (t0 + 1 * second))).
  - by_evaluation.
  - reflexivity.
  - assert (Hz : archive_dir rotated_once
                   !! archive_name (current_file rotated_once) (now half_past)
                 = Some (ZipArchive [("sensor_data.csv", csv_of [reading_of step_a])]))
      by by_evaluation.
    rewrite Hz. discriminate.
Defined.

(** X5 at work, with [retention_days = 0]: the rotation half a second
    after 12:00:01 deletes the archive it writes. *)
Lemma rotation_sweeps_its_own_archive_witness :
  exists w',
    _rotate half_past started0 = (Ok tt, w')
    /\ archive_dir w' !! archive_name (current_file started0) (now half_past) = None
    /\ forall f', log_dir w' !! current_file started0 = Some f' -> f_rows f' = [header].
Proof.
  apply (rotation_sweeps_its_own_archive (H := RefPlatform)
           half_past started0 (File [header] t0) (t0 + 1 * second)).
  - by_evaluation.
  - reflexivity.
  - assert (Hz : archive_dir started0
                   !! archive_name (current_file started0) (now half_past) = None)
      by by_evaluation.
    rewrite Hz. discriminate.
  - by_evaluation.
  - by_evaluation.
  - reflexivity.
Defined.

(** X7 at work on rows of three, two and one field, and of five. *)
Lemma rows_shorter_or_longer_than_the_header_witness :
  scan t0 (t0 + days 1) (Some "temp_1")
       (to_dict header ["2025-06-01T12:00:01"; "temp_1"; "20.0"] :: []) []
  = scan t0 (t0 + days 1) (Some "temp_1") []
         ([] ++ [LogEntry_ _ (t0 + 1 * second) (Some "temp_1") 20 None])
  /\ scan t0 (t0 + days 1) (Some "temp_1")
          (to_dict header ["2025-06-01T12:00:01"; "temp_1"] :: []) []
     = Raise TypeError
  /\ scan t0 (t0 + days 1) None (to_dict header ["2025-06-01T12:00:01"] :: []) []
     = Raise TypeError
  /\ (forall s, scan t0 (t0 + days 1) (Some s)
                     (to_dict header ["2025-06-01T12:00:01"] :: []) []
                = scan t0 (t0 + days 1) (Some s) [] [])
  /\ to_dict header ("2025-06-01T12:00:01" :: "temp_1" :: "20.0" :: "C" :: ["x"; "y"])
     = to_dict header ["2025-06-01T12:00:01"; "temp_1"; "20.0"; "C"].
Proof.
  apply (rows_shorter_or_longer_than_the_header (H := RefPlatform)
           t0 (t0 + days 1) (Some "temp_1")
           "2025-06-01T12:00:01" "temp_1" "20.0" "C" ["x"; "y"]
           (t0 + 1 * second) 20 [] []).
  - by_evaluation.
  - by_evaluation.
  - split; discriminate.
  - right. reflexivity.
Defined.

(** X8 at work: the logger starts on the empty file and appends two rows;
    the file holds the two rows and no header, and the read raises. *)
Lemma existing_empty_file_gets_no_header_witness :
  exists w0 w,
    __init__ cfg3 (at_ t0) empty_files ∅ = (Ok tt, w0)
    /\ log_dir w0 = empty_files
    /\ run [step_a; step_b] w0 = (Ok tt, w)
    /\ log_dir w !! strftime (now (at_ t0)) (filename_pattern cfg3)
       = Some (File (map encode (map reading_of [step_a; step_b]))
                    (last_write (t0 - hours 2) [step_a; step_b]))
    /\ read_logs w t0 (t0 + days 1) None = Raise KeyError.
Proof.
  apply (existing_empty_file_gets_no_header (H := RefPlatform)
           cfg3 (at_ t0) empty_files ∅ (t0 - hours 2) step_a [step_b]
           t0 (t0 + days 1) None).
  - by_evaluation.
  - reflexivity.
  - reflexivity.
  - reflexivity.
  - repeat (constructor; [discriminate|]). constructor.
  - reflexivity.
  - assert (Hrow : encode (reading_of step_a)
                   = ["2025-06-01T12:00:01"; "temp_1"; "20.0"; "C"])
      by by_evaluation.
    rewrite Hrow. intros Hin.
    repeat (apply elem_of_cons in Hin as [Hin|Hin]; [discriminate Hin|]).
    by apply elem_of_nil in Hin.
Defined.


(** X10 at work: the recorder that is attached is attached again. *)
Lemma observers_stay_distinct_witness :
  (NoDup (_observers (attach (ObsRecorder 1) probe))
   /\ ObsRecorder 1 ∈ _observers (attach (ObsRecorder 1) probe))
  /\ (NoDup (_observers (detach (ObsRecorder 1) probe))
      /\ ObsRecorder 1 ∉ _observers (detach (ObsRecorder 1) probe))
  /\ attach (ObsRecorder 1) (attach (ObsRecorder 1) probe)
     = attach (ObsRecorder 1) probe
  /\ (ObsRecorder 1 ∉ _observers probe ->
      detach (ObsRecorder 1) (attach (ObsRecorder 1) probe) = probe)
  /\ (forall o', o' <> ObsRecorder 1 ->
        (o' ∈ _observers (attach (ObsRecorder 1) probe) <-> o' ∈ _observers probe)
        /\ (o' ∈ _observers (detach (ObsRecorder 1) probe)
            <-> o' ∈ _observers probe)).
Proof.
  apply (observers_stay_distinct (H := RefPlatform) (ObsRecorder 1) probe).
  apply (bool_decide_unpack _). exact I.
Defined.

(** X12 at work: the probe reads 10 at 12:00:01; the logger appends 20,
    as in the first step of the scenario, and both recorders take 20. *)
Lemma read_notifies_every_observer_once_witness :
  read Z.mul (at_ (t0 + 1 * second)) 10 (System probe started [])
  = (Returned 20,
     System (set_last_value (Some 20) probe) (run [step_a] started).2
            ([] ++ map (fun k => (k, thermometer, 20))
                       (recorders ([ObsRecorder 1] ++ [ObsRecorder 2]))))
  /\ read Z.mul (at_ (t0 + 1 * second)) 10
          (set_sensor (detach ObsLogger probe) (System probe started []))
     = (Returned 20,
        System (set_last_value (Some 20) (detach ObsLogger probe)) started
               ([] ++ map (fun k => (k, thermometer, 20))
                          (recorders ([ObsRecorder 1] ++ [ObsRecorder 2])))).
Proof.
  apply (read_notifies_every_observer_once (H := RefPlatform) Z.mul
           (at_ (t0 + 1 * second)) 10 (System probe started [])
           [ObsRecorder 1] [ObsRecorder 2] (run [step_a] started).2).
  - reflexivity.
  - reflexivity.
  - intros Hin. apply list_elem_of_singleton in Hin. discriminate Hin.
  - intros Hin. apply list_elem_of_singleton in Hin. discriminate Hin.
  - refine (pair_of_fst (update (at_ (t0 + 1 * second)) thermometer 20 started)
                        (Ok tt) _).
    by_evaluation.
Defined.

(** X13 at work: the logger is closed; the first recorder takes the
    value, the second does not, and the value is kept. *)
Lemma read_raises_what_the_logger_raises_witness :
  read Z.mul (at_ (t0 + 1 * second)) 10 (System probe (close started).2 [])
  = (Raised (ObserverRaised ValueError),
     System (set_last_value (Some 20) probe) (close started).2
            ([] ++ map (fun k => (k, thermometer, 20)) (recorders [ObsRecorder 1])))
  /\ get_last Z.mul (at_ (t0 + 2 * second)) 11
       (System (set_last_value (Some 20) probe) (close started).2
               ([] ++ map (fun k => (k, thermometer, 20)) (recorders [ObsRecorder 1])))
     = (Returned 20,
        System (set_last_value (Some 20) probe) (close started).2
               ([] ++ map (fun k => (k, thermometer, 20)) (recorders [ObsRecorder 1]))).
Proof.
  apply (read_raises_what_the_logger_raises (H := RefPlatform) Z.mul
           (at_ (t0 + 1 * second)) 10 (System probe (close started).2 [])
           [ObsRecorder 1] [ObsRecorder 2] ValueError (close started).2
           (at_ (t0 + 2 * second)) 11).
  - reflexivity.
  - reflexivity.
  - intros Hin. apply list_elem_of_singleton in Hin. discriminate Hin.
  - apply update_on_closed_handle. reflexivity.
Defined.


(** X15 at work: the read of the whole day returns the three readings of
    the scenario; the read of two seconds under the filter of the
    thermometer returns what is left of them. *)
Lemma narrower_read_is_part_of_the_wider_witness :
  read_logs_between after_three after_three
                    (t0 + 2 * second) (t0 + 3 * second) (Some "temp_1")
  = Ok (filter (matches (t0 + 2 * second) (t0 + 3 * second) (Some "temp_1"))
               [entry_of (reading_of step_a); entry_of (reading_of step_b);
                entry_of (reading_of step_c)]).
Proof.
  apply (narrower_read_is_part_of_the_wider (H := RefPlatform)
           after_three after_three t0 (t0 + days 1) None).
  - discriminate.
  - discriminate.
  - left. reflexivity.
  - by_evaluation.
Defined.

(** X16 at work on the archive directory of March, swept on the first
    of June and again a second later. *)
Lemma later_sweep_subsumes_the_earlier_witness :
  (_cleanup_archives (at_ t0) >>> _cleanup_archives (at_ (t0 + 1 * second)))
    with_mixed_archives
  = _cleanup_archives (at_ (t0 + 1 * second)) with_mixed_archives
  /\ (_cleanup_archives (at_ (t0 + 1 * second))
      >>> _cleanup_archives (at_ (t0 + 1 * second))) with_mixed_archives
     = _cleanup_archives (at_ (t0 + 1 * second)) with_mixed_archives.
Proof.
  apply (later_sweep_subsumes_the_earlier (H := RefPlatform)
           (at_ t0) (at_ (t0 + 1 * second)) with_mixed_archives).
  discriminate.
Defined.
